(** * KnowledgeBase: storage layer and API routes

    A shallow embedding of [server/storage.ts] (class [DatabaseStorage]),
    of the table declarations of [shared/schema.ts] and of the request
    handlers of [server/routes.ts], with the properties of the article /
    tag-link / publish-timestamp logic stated over it.

    The relational store is a record of tables (lists of rows, in insertion
    order).  Every SQL statement is atomic: it either applies as a whole or
    is rejected and leaves the tables as they were.  The storage methods
    issue their statements one after the other with no enclosing
    transaction, so a statement rejected in the middle of a method keeps the
    effect of the earlier ones. *)

From Stdlib Require Import String List ZArith Bool Lia DecimalString DecimalNat.
From Stdlib Require Import Sorted Permutation.
Import ListNotations.
Open Scope string_scope.

(** ** shared/schema.ts: rows of the five tables *)

Module User.
Record t := mk {
  id : string;
  username : string;
  password : string;
  email : string;
  fullName : string;
  role : string;
  createdAt : Z
}.
End User.

Module Category.
Record t := mk {
  id : string;
  name : string;
  description : option string;
  color : string;
  createdAt : Z
}.
End Category.

Module Tag.
Record t := mk {
  id : string;
  name : string;
  createdAt : Z
}.
End Tag.

Module Article.
Record t := mk {
  id : string;
  title : string;
  content : string;
  excerpt : option string;
  coverImage : option string;
  status : string;
  categoryId : option string;
  authorId : string;
  views : Z;
  createdAt : Z;
  updatedAt : Z;
  publishedAt : option Z
}.
End Article.

(** Row of the [article_tags] junction table. *)
Module ArticleTag.
Record t := mk {
  id : string;
  articleId : string;
  tagId : string
}.
End ArticleTag.

(** ** Insert types ([z.infer] of the insert schemas)

    A key that may be left out is an [option]: [None] is JavaScript's
    [undefined].  A nullable column that may also be left out is an
    [option (option _)]: [Some None] is an explicit [null]. *)

Module InsertUser.
Record t := mk {
  username : string;
  password : string;
  email : string;
  fullName : string;
  role : option string
}.
End InsertUser.

Module InsertCategory.
Record t := mk {
  name : string;
  description : option (option string);
  color : option string
}.
End InsertCategory.

Module InsertTag.
Record t := mk { name : string }.
End InsertTag.

(** [InsertArticle]: the columns of [articles] less [id], [createdAt],
    [updatedAt], [publishedAt] and [views].  The schema's extra [tagIds] key
    is no column of the table; the routes take it out of the body before the
    storage call and hand it over as the separate [tagIds] argument. *)
Module InsertArticle.
Record t := mk {
  title : string;
  content : string;
  excerpt : option (option string);
  coverImage : option (option string);
  status : option string;
  categoryId : option (option string);
  authorId : string
}.
End InsertArticle.

(** [Partial<InsertArticle>]: every key may be left out. *)
Module PartialArticle.
Record t := mk {
  title : option string;
  content : option string;
  excerpt : option (option string);
  coverImage : option (option string);
  status : option string;
  categoryId : option (option string);
  authorId : option string
}.

Definition empty : t := mk None None None None None None None.
End PartialArticle.

(** [ArticleWithRelations], as [db.query.articles.findMany] with
    [author], [category] and [articleTags.tag] builds it, plus the [tags]
    key the storage methods add.  A relation whose row is missing is
    [null]. *)
Module ArticleTagWithTag.
Record t := mk {
  link : ArticleTag.t;
  tag : option Tag.t
}.
End ArticleTagWithTag.

Module ArticleWithRelations.
Record t := mk {
  article : Article.t;
  author : option User.t;
  category : option Category.t;
  articleTags : list ArticleTagWithTag.t;
  tags : list (option Tag.t)
}.
End ArticleWithRelations.

(** ** The store *)

Record Db := mkDb {
  users : list User.t;
  categories : list Category.t;
  tags : list Tag.t;
  articles : list Article.t;
  articleTags : list ArticleTag.t;
  (** how many keys [gen_random_uuid()] has handed out *)
  uuids : nat
}.

Definition emptyDb : Db := mkDb [] [] [] [] [] 0.

(** [gen_random_uuid()] never hands out the same key twice: the n-th key
    it produces is [uuid n]. *)
Definition uuid (n : nat) : string :=
  "uuid-" ++ NilEmpty.string_of_uint (Nat.to_uint n).

(** The two clocks a storage call reads: [new Date()] in the server
    process and [now()] in the database (the default of the timestamp
    columns). *)
Record Clock := mkClock {
  new_Date : Z;
  sql_now : Z
}.

(** What a rejected promise carries. *)
Inductive Error :=
| ForeignKeyViolation (constraint : string)
| UniqueViolation (constraint : string)
| IntegerOutOfRange
| NoValues
| ZodError (issue : string).

(** [error.message].  The texts of the store's and of drizzle's own
    messages are not part of this repository; only the zod issues, which
    the schemas spell out, are used verbatim. *)
Definition message (e : Error) : string :=
  match e with
  | ForeignKeyViolation c => "violates foreign key constraint " ++ c
  | UniqueViolation c => "duplicate key value violates unique constraint " ++ c
  | IntegerOutOfRange => "integer out of range"
  | NoValues => "values() must be called with at least one value"
  | ZodError issue => issue
  end.

(** ** Promises over the store

    [await p] runs [p] on the current tables; a rejection is thrown and
    skips the rest of the method, the tables staying as the statements so
    far have left them. *)
Inductive Settled (A : Type) :=
| Fulfilled (a : A)
| Rejected (e : Error).
Arguments Fulfilled {A} a.
Arguments Rejected {A} e.

Definition Promise (A : Type) : Type := Db -> Db * Settled A.

Definition resolve {A} (a : A) : Promise A := fun db => (db, Fulfilled a).
Definition throw {A} (e : Error) : Promise A := fun db => (db, Rejected e).

Definition await {A B} (p : Promise A) (k : A -> Promise B) : Promise B :=
  fun db =>
    match p db with
    | (db', Fulfilled a) => k a db'
    | (db', Rejected e) => (db', Rejected e)
    end.

Notation "x <- p ;; k" := (await p (fun x => k))
  (at level 61, p at next level, right associativity).
Notation "p ;;; k" := (await p (fun _ => k))
  (at level 61, right associativity).

(** ** Statements against the tables *)

Definition orElse {A} (o : option A) (d : A) : A :=
  match o with Some a => a | None => d end.

(** A nullable column left out of an insert takes its default, [NULL]. *)
Definition orNull {A} (o : option (option A)) : option A :=
  match o with Some x => x | None => None end.

Definition set_users (db : Db) (l : list User.t) : Db :=
  mkDb l (categories db) (tags db) (articles db) (articleTags db) (uuids db).
Definition set_categories (db : Db) (l : list Category.t) : Db :=
  mkDb (users db) l (tags db) (articles db) (articleTags db) (uuids db).
Definition set_tags (db : Db) (l : list Tag.t) : Db :=
  mkDb (users db) (categories db) l (articles db) (articleTags db) (uuids db).
Definition set_articles (db : Db) (l : list Article.t) : Db :=
  mkDb (users db) (categories db) (tags db) l (articleTags db) (uuids db).
Definition set_articleTags (db : Db) (l : list ArticleTag.t) : Db :=
  mkDb (users db) (categories db) (tags db) (articles db) l (uuids db).
Definition set_uuids (db : Db) (n : nat) : Db :=
  mkDb (users db) (categories db) (tags db) (articles db) (articleTags db) n.

Definition has_user (db : Db) (id : string) : bool :=
  existsb (fun u => User.id u =? id) (users db).
Definition has_category (db : Db) (id : string) : bool :=
  existsb (fun c => Category.id c =? id) (categories db).
Definition has_tag (db : Db) (id : string) : bool :=
  existsb (fun t => Tag.id t =? id) (tags db).
Definition has_article (db : Db) (id : string) : bool :=
  existsb (fun a => Article.id a =? id) (articles db).

(** [integer] columns are 32-bit; the store rejects a value out of range
    instead of wrapping it. *)
Definition int4_ok (z : Z) : bool :=
  ((-2147483648 <=? z) && (z <=? 2147483647))%Z.

(** The column default [gen_random_uuid()]. *)
Definition gen_random_uuid : Promise string :=
  fun db => (set_uuids db (S (uuids db)), Fulfilled (uuid (uuids db))).

(** [db.insert(users).values(v).returning()]: [username] and [email] are
    [unique()]. *)
Definition insert_users (clk : Clock) (v : InsertUser.t) : Promise User.t :=
  key <- gen_random_uuid ;;
  fun db =>
    if existsb (fun u => User.username u =? InsertUser.username v) (users db)
    then (db, Rejected (UniqueViolation "users_username_unique"))
    else if existsb (fun u => User.email u =? InsertUser.email v) (users db)
    then (db, Rejected (UniqueViolation "users_email_unique"))
    else
      let row := User.mk key (InsertUser.username v) (InsertUser.password v)
                   (InsertUser.email v) (InsertUser.fullName v)
                   (orElse (InsertUser.role v) "employee") (sql_now clk) in
      (set_users db (users db ++ [row]), Fulfilled row).

(** [db.insert(categories).values(v).returning()]: [name] is [unique()]. *)
Definition insert_categories (clk : Clock) (v : InsertCategory.t)
  : Promise Category.t :=
  key <- gen_random_uuid ;;
  fun db =>
    if existsb (fun c => Category.name c =? InsertCategory.name v) (categories db)
    then (db, Rejected (UniqueViolation "categories_name_unique"))
    else
      let row := Category.mk key (InsertCategory.name v)
                   (orNull (InsertCategory.description v))
                   (orElse (InsertCategory.color v) "#3b82f6") (sql_now clk) in
      (set_categories db (categories db ++ [row]), Fulfilled row).

(** [db.insert(tags).values(v).returning()]: [name] is [unique()]. *)
Definition insert_tags (clk : Clock) (v : InsertTag.t) : Promise Tag.t :=
  key <- gen_random_uuid ;;
  fun db =>
    if existsb (fun t => Tag.name t =? InsertTag.name v) (tags db)
    then (db, Rejected (UniqueViolation "tags_name_unique"))
    else
      let row := Tag.mk key (InsertTag.name v) (sql_now clk) in
      (set_tags db (tags db ++ [row]), Fulfilled row).

(** The foreign keys of an [articles] row: [author_id] references
    [users.id], [category_id] (when not null) references [categories.id]. *)
Definition category_ref_ok (db : Db) (c : option string) : bool :=
  match c with Some c => has_category db c | None => true end.

(** The row [db.insert(articles).values({...v, publishedAt})] builds under
    the key [key]: the columns left out take their defaults ([status]
    "draft", [views] 0, [createdAt] and [updatedAt] [now()], the nullable
    ones [NULL]). *)
Definition article_row (key : string) (clk : Clock) (v : InsertArticle.t)
  (publishedAt : option Z) : Article.t :=
  Article.mk key (InsertArticle.title v) (InsertArticle.content v)
    (orNull (InsertArticle.excerpt v))
    (orNull (InsertArticle.coverImage v))
    (orElse (InsertArticle.status v) "draft")
    (orNull (InsertArticle.categoryId v))
    (InsertArticle.authorId v)
    0%Z (sql_now clk) (sql_now clk) publishedAt.

(** [db.insert(articles).values({...v, publishedAt}).returning()]. *)
Definition insert_articles (clk : Clock) (v : InsertArticle.t)
  (publishedAt : option Z) : Promise Article.t :=
  key <- gen_random_uuid ;;
  fun db =>
    let row := article_row key clk v publishedAt in
    if negb (has_user db (Article.authorId row))
    then (db, Rejected (ForeignKeyViolation "articles_author_id_users_id_fk"))
    else if negb (category_ref_ok db (Article.categoryId row))
    then (db, Rejected (ForeignKeyViolation "articles_category_id_categories_id_fk"))
    else (set_articles db (articles db ++ [row]), Fulfilled row).

(** The rows [db.insert(articleTags).values(vs)] adds for the
    [{articleId, tagId}] objects [vs]: one row per object, in order, keyed
    from the n-th uuid on. *)
Fixpoint link_rows (n : nat) (vs : list (string * string)) : list ArticleTag.t :=
  match vs with
  | [] => []
  | (a, t) :: rest => ArticleTag.mk (uuid n) a t :: link_rows (S n) rest
  end.

(** [db.insert(articleTags).values(vs)].  drizzle refuses an empty array;
    [article_id] references [articles.id] and [tag_id] references
    [tags.id], and one bad reference rejects the whole statement. *)
Definition insert_articleTags (vs : list (string * string)) : Promise unit :=
  fun db =>
    match vs with
    | [] => (db, Rejected NoValues)
    | _ =>
      let db1 := set_uuids db (uuids db + length vs) in
      if negb (forallb (fun v => has_article db (fst v)) vs)
      then (db1, Rejected (ForeignKeyViolation "article_tags_article_id_articles_id_fk"))
      else if negb (forallb (fun v => has_tag db (snd v)) vs)
      then (db1, Rejected (ForeignKeyViolation "article_tags_tag_id_tags_id_fk"))
      else (set_articleTags db1 (articleTags db ++ link_rows (uuids db) vs),
            Fulfilled tt)
    end.

(** [db.delete(articleTags).where(eq(articleTags.articleId, id))]. *)
Definition delete_articleTags_of (id : string) : Promise unit :=
  fun db =>
    (set_articleTags db
       (filter (fun l => negb (ArticleTag.articleId l =? id)) (articleTags db)),
     Fulfilled tt).

(** An integer value in a [.set({...})]: a plain parameter, or the
    expression [sql`${articles.views} + n`] over the row being updated. *)
Inductive IntExpr :=
| Param (n : Z)
| ViewsPlus (n : Z).

Definition eval_int (e : IntExpr) (row : Article.t) : Z :=
  match e with
  | Param n => n
  | ViewsPlus n => (Article.views row + n)%Z
  end.

(** The object given to [db.update(articles).set(...)].  drizzle drops the
    keys whose value is [undefined] ([None]): those columns keep their
    value. *)
Module ArticleSet.
Record t := mk {
  title : option string;
  content : option string;
  excerpt : option (option string);
  coverImage : option (option string);
  status : option string;
  categoryId : option (option string);
  authorId : option string;
  views : option IntExpr;
  updatedAt : option Z;
  publishedAt : option (option Z)
}.

Definition apply (s : t) (row : Article.t) : Article.t :=
  Article.mk (Article.id row)
    (orElse (title s) (Article.title row))
    (orElse (content s) (Article.content row))
    (orElse (excerpt s) (Article.excerpt row))
    (orElse (coverImage s) (Article.coverImage row))
    (orElse (status s) (Article.status row))
    (orElse (categoryId s) (Article.categoryId row))
    (orElse (authorId s) (Article.authorId row))
    (match views s with Some e => eval_int e row | None => Article.views row end)
    (Article.createdAt row)
    (orElse (updatedAt s) (Article.updatedAt row))
    (orElse (publishedAt s) (Article.publishedAt row)).
End ArticleSet.

(** Why the store would reject [UPDATE articles SET s] on the rows [hit]:
    a newly written reference that points nowhere, or a newly computed
    counter out of range.  Columns the statement does not write are not
    checked again. *)
Definition update_articles_check (db : Db) (s : ArticleSet.t)
  (hit : list Article.t) : option Error :=
  if negb (match ArticleSet.authorId s with Some u => has_user db u | None => true end)
  then Some (ForeignKeyViolation "articles_author_id_users_id_fk")
  else if negb (match ArticleSet.categoryId s with
                | Some c => category_ref_ok db c | None => true end)
  then Some (ForeignKeyViolation "articles_category_id_categories_id_fk")
  else if negb (match ArticleSet.views s with
                | Some e => forallb (fun a => int4_ok (eval_int e a)) hit
                | None => true end)
  then Some IntegerOutOfRange
  else None.

(** The row-by-row effect of an accepted
    [UPDATE articles SET s WHERE id = id]. *)
Definition rewrite_row (s : ArticleSet.t) (id : string) (a : Article.t) : Article.t :=
  if Article.id a =? id then ArticleSet.apply s a else a.

(** [db.update(articles).set(s).where(eq(articles.id, id)).returning()]:
    the rows it changed, as they are after the change.  With no row to
    change nothing is checked. *)
Definition update_articles (s : ArticleSet.t) (id : string)
  : Promise (list Article.t) :=
  fun db =>
    let hit := filter (fun a => Article.id a =? id) (articles db) in
    match hit with
    | [] => (db, Fulfilled [])
    | _ =>
      match update_articles_check db s hit with
      | Some e => (db, Rejected e)
      | None =>
        (set_articles db (map (rewrite_row s id) (articles db)),
         Fulfilled (map (ArticleSet.apply s) hit))
      end
    end.

(** [db.delete(articles).where(eq(articles.id, id))]; the links of the
    article go with it ([onDelete: "cascade"]). *)
Definition delete_articles (id : string) : Promise unit :=
  fun db =>
    (set_articleTags
       (set_articles db (filter (fun a => negb (Article.id a =? id)) (articles db)))
       (filter (fun l => negb (ArticleTag.articleId l =? id)) (articleTags db)),
     Fulfilled tt).

(** [db.delete(tags).where(eq(tags.id, id))]; cascades to the links. *)
Definition delete_tags (id : string) : Promise unit :=
  fun db =>
    (set_articleTags
       (set_tags db (filter (fun t => negb (Tag.id t =? id)) (tags db)))
       (filter (fun l => negb (ArticleTag.tagId l =? id)) (articleTags db)),
     Fulfilled tt).

(** [db.delete(users).where(eq(users.id, id))]: [articles.author_id] has no
    [onDelete], so a user who still has articles cannot be deleted. *)
Definition delete_users (id : string) : Promise unit :=
  fun db =>
    if has_user db id && existsb (fun a => Article.authorId a =? id) (articles db)
    then (db, Rejected (ForeignKeyViolation "articles_author_id_users_id_fk"))
    else (set_users db (filter (fun u => negb (User.id u =? id)) (users db)),
          Fulfilled tt).

(** [db.delete(categories).where(eq(categories.id, id))]: likewise for
    [articles.category_id]. *)
Definition delete_categories (id : string) : Promise unit :=
  fun db =>
    if has_category db id
       && existsb (fun a => match Article.categoryId a with
                            | Some c => c =? id | None => false end) (articles db)
    then (db, Rejected (ForeignKeyViolation "articles_category_id_categories_id_fk"))
    else (set_categories db
            (filter (fun c => negb (Category.id c =? id)) (categories db)),
          Fulfilled tt).

(** [ORDER BY key DESC] and [ORDER BY name]: rows with equal keys keep the
    order of the table. *)
Fixpoint insert_by {A} (before : A -> A -> bool) (x : A) (l : list A) : list A :=
  match l with
  | [] => [x]
  | y :: rest => if before x y then x :: y :: rest else y :: insert_by before x rest
  end.

Definition orderBy {A} (before : A -> A -> bool) (l : list A) : list A :=
  fold_right (insert_by before) [] l.

Definition desc {A} (key : A -> Z) (x y : A) : bool := (key y <=? key x)%Z.
Definition asc_name {A} (key : A -> string) (x y : A) : bool := String.leb (key x) (key y).

(** One article with the relations [author], [category] and
    [articleTags: { with: { tag } }] resolved, and the [tags] key
    [article.articleTags.map((at) => at.tag)]. *)
Definition with_relations (db : Db) (a : Article.t) : ArticleWithRelations.t :=
  let ats :=
    map (fun l =>
           ArticleTagWithTag.mk l
             (find (fun t => Tag.id t =? ArticleTag.tagId l) (tags db)))
        (filter (fun l => ArticleTag.articleId l =? Article.id a) (articleTags db)) in
  ArticleWithRelations.mk a
    (find (fun u => User.id u =? Article.authorId a) (users db))
    (match Article.categoryId a with
     | Some c => find (fun x => Category.id x =? c) (categories db)
     | None => None
     end)
    ats
    (map ArticleTagWithTag.tag ats).

(** ** server/storage.ts: class DatabaseStorage *)

(** [x === "published"] for a key that may be left out. *)
Definition is_published (status : option string) : bool :=
  match status with Some s => s =? "published" | None => false end.

Module DatabaseStorage.

Definition getUser (id : string) : Promise (option User.t) :=
  fun db => (db, Fulfilled (find (fun u => User.id u =? id) (users db))).

Definition getUserByUsername (username : string) : Promise (option User.t) :=
  fun db => (db, Fulfilled (find (fun u => User.username u =? username) (users db))).

Definition getUserByEmail (email : string) : Promise (option User.t) :=
  fun db => (db, Fulfilled (find (fun u => User.email u =? email) (users db))).

Definition createUser (clk : Clock) (insertUser : InsertUser.t) : Promise User.t :=
  insert_users clk insertUser.

Definition getAllUsers : Promise (list User.t) :=
  fun db => (db, Fulfilled (orderBy (desc User.createdAt) (users db))).

Definition deleteUser (id : string) : Promise unit := delete_users id.

Definition getAllArticles : Promise (list ArticleWithRelations.t) :=
  fun db =>
    (db, Fulfilled (map (with_relations db)
                      (orderBy (desc Article.createdAt) (articles db)))).

Definition getArticleById (id : string) : Promise (option ArticleWithRelations.t) :=
  fun db =>
    (db, Fulfilled (option_map (with_relations db)
                      (find (fun a => Article.id a =? id) (articles db)))).

Definition getRecentArticles (limit : nat) : Promise (list ArticleWithRelations.t) :=
  fun db =>
    (db, Fulfilled (map (with_relations db)
                      (firstn limit (orderBy (desc Article.createdAt) (articles db))))).

Definition createArticle (clk : Clock) (insertArticle : InsertArticle.t)
  (tagIds : option (list string)) : Promise Article.t :=
  article <- insert_articles clk insertArticle
               (if is_published (InsertArticle.status insertArticle)
                then Some (new_Date clk) else None) ;;
  (* Add tags if provided *)
  match tagIds with
  | Some ((_ :: _) as tagIds) =>
      insert_articleTags (map (fun tagId => (Article.id article, tagId)) tagIds)
  | _ => resolve tt
  end ;;;
  resolve article.

(** The object [{ ...updateData, updatedAt: new Date(), publishedAt:
    updateData.status === "published" ? new Date() : undefined }]. *)
Definition updateArticle_set (clk : Clock) (updateData : PartialArticle.t)
  : ArticleSet.t :=
  ArticleSet.mk
    (PartialArticle.title updateData)
    (PartialArticle.content updateData)
    (PartialArticle.excerpt updateData)
    (PartialArticle.coverImage updateData)
    (PartialArticle.status updateData)
    (PartialArticle.categoryId updateData)
    (PartialArticle.authorId updateData)
    None
    (Some (new_Date clk))
    (if is_published (PartialArticle.status updateData)
     then Some (Some (new_Date clk)) else None).

(** The promise resolves to the first row the update returned:
    [undefined] ([None]) when no row has that id. *)
Definition updateArticle (clk : Clock) (id : string)
  (updateData : PartialArticle.t) (tagIds : option (list string))
  : Promise (option Article.t) :=
  rows <- update_articles (updateArticle_set clk updateData) id ;;
  (* Update tags if provided *)
  match tagIds with
  | Some tagIds =>
      (* Remove all existing tags *)
      delete_articleTags_of id ;;;
      (* Add new tags *)
      match tagIds with
      | _ :: _ => insert_articleTags (map (fun tagId => (id, tagId)) tagIds)
      | [] => resolve tt
      end
  | None => resolve tt
  end ;;;
  resolve (hd_error rows).

Definition deleteArticle (id : string) : Promise unit := delete_articles id.

(** The object [{ views: sql`${articles.views} + 1` }]. *)
Definition incrementArticleViews_set : ArticleSet.t :=
  ArticleSet.mk None None None None None None None (Some (ViewsPlus 1)) None None.

Definition incrementArticleViews (id : string) : Promise unit :=
  update_articles incrementArticleViews_set id ;;;
  resolve tt.

Definition getAllCategories : Promise (list Category.t) :=
  fun db => (db, Fulfilled (orderBy (asc_name Category.name) (categories db))).

Definition getCategoryById (id : string) : Promise (option Category.t) :=
  fun db => (db, Fulfilled (find (fun c => Category.id c =? id) (categories db))).

Definition createCategory (clk : Clock) (insertCategory : InsertCategory.t)
  : Promise Category.t :=
  insert_categories clk insertCategory.

Definition deleteCategory (id : string) : Promise unit := delete_categories id.

Definition getAllTags : Promise (list Tag.t) :=
  fun db => (db, Fulfilled (orderBy (asc_name Tag.name) (tags db))).

Definition getTagById (id : string) : Promise (option Tag.t) :=
  fun db => (db, Fulfilled (find (fun t => Tag.id t =? id) (tags db))).

Definition createTag (clk : Clock) (insertTag : InsertTag.t) : Promise Tag.t :=
  insert_tags clk insertTag.

Definition deleteTag (id : string) : Promise unit := delete_tags id.

Definition getArticleTags (articleId : string) : Promise (list Tag.t) :=
  fun db =>
    (db, Fulfilled
           (flat_map (fun l => filter (fun t => Tag.id t =? ArticleTag.tagId l) (tags db))
              (filter (fun l => ArticleTag.articleId l =? articleId) (articleTags db)))).

End DatabaseStorage.

(** ** JSON values, as [res.json] sends them *)

#[local] Set Warnings "-register-all".
Inductive Json :=
| JNull
| JBool (b : bool)
| JNum (n : Z)
| JStr (s : string)
| JArr (items : list Json)
| JObj (fields : list (string * Json)).
#[local] Set Warnings "register-all".

Definition JNullable {A} (f : A -> Json) (o : option A) : Json :=
  match o with Some a => f a | None => JNull end.

(** The rest pattern [({ key, ...rest }) => rest]. *)
Definition omit (key : string) (j : Json) : Json :=
  match j with
  | JObj fields => JObj (filter (fun kv => negb (fst kv =? key)) fields)
  | _ => j
  end.

(** Does the key occur anywhere in the value, at any depth? *)
Fixpoint mentions (key : string) (j : Json) : bool :=
  match j with
  | JArr items => existsb (mentions key) items
  | JObj fields => existsb (fun kv => (fst kv =? key) || mentions key (snd kv)) fields
  | _ => false
  end.

(** Rows as objects.  A timestamp is sent as an ISO string; it is kept
    here as the instant it denotes. *)
Definition User_json (u : User.t) : Json :=
  JObj [("id", JStr (User.id u)); ("username", JStr (User.username u));
        ("password", JStr (User.password u)); ("email", JStr (User.email u));
        ("fullName", JStr (User.fullName u)); ("role", JStr (User.role u));
        ("createdAt", JNum (User.createdAt u))].

Definition Category_json (c : Category.t) : Json :=
  JObj [("id", JStr (Category.id c)); ("name", JStr (Category.name c));
        ("description", JNullable JStr (Category.description c));
        ("color", JStr (Category.color c));
        ("createdAt", JNum (Category.createdAt c))].

Definition Tag_json (t : Tag.t) : Json :=
  JObj [("id", JStr (Tag.id t)); ("name", JStr (Tag.name t));
        ("createdAt", JNum (Tag.createdAt t))].

Definition Article_fields (a : Article.t) : list (string * Json) :=
  [("id", JStr (Article.id a)); ("title", JStr (Article.title a));
   ("content", JStr (Article.content a));
   ("excerpt", JNullable JStr (Article.excerpt a));
   ("coverImage", JNullable JStr (Article.coverImage a));
   ("status", JStr (Article.status a));
   ("categoryId", JNullable JStr (Article.categoryId a));
   ("authorId", JStr (Article.authorId a));
   ("views", JNum (Article.views a));
   ("createdAt", JNum (Article.createdAt a));
   ("updatedAt", JNum (Article.updatedAt a));
   ("publishedAt", JNullable JNum (Article.publishedAt a))].

Definition Article_json (a : Article.t) : Json := JObj (Article_fields a).

Definition ArticleTagWithTag_json (x : ArticleTagWithTag.t) : Json :=
  let l := ArticleTagWithTag.link x in
  JObj [("id", JStr (ArticleTag.id l)); ("articleId", JStr (ArticleTag.articleId l));
        ("tagId", JStr (ArticleTag.tagId l));
        ("tag", JNullable Tag_json (ArticleTagWithTag.tag x))].

Definition ArticleWithRelations_json (x : ArticleWithRelations.t) : Json :=
  JObj (Article_fields (ArticleWithRelations.article x) ++
        [("author", JNullable User_json (ArticleWithRelations.author x));
         ("category", JNullable Category_json (ArticleWithRelations.category x));
         ("articleTags",
          JArr (map ArticleTagWithTag_json (ArticleWithRelations.articleTags x)));
         ("tags", JArr (map (JNullable Tag_json) (ArticleWithRelations.tags x)))]).

(** ** Requests and responses *)

(** [body = None] is the empty body [res.json(undefined)] sends. *)
Record Response := mkResponse {
  status : nat;
  body : option Json
}.

Definition res_json (j : Json) : Response := mkResponse 200 (Some j).
Definition res_error (code : nat) (msg : string) : Response :=
  mkResponse code (Some (JObj [("error", JStr msg)])).

Record Request (B : Type) := mkRequest {
  session_userId : option string;
  params_id : string;
  query_edit : option string;
  req_body : B
}.
Arguments mkRequest {B}.
Arguments session_userId {B}.
Arguments params_id {B}.
Arguments query_edit {B}.
Arguments req_body {B}.

(** JavaScript truthiness of a string that may be missing. *)
Definition truthy (s : option string) : bool :=
  match s with Some s => negb (s =? "") | None => false end.

(** [a || b] on strings. *)
Definition or_string (a b : string) : string := if a =? "" then b else a.

Definition Handler (B : Type) : Type := Request B -> Db -> Db * Response.

(** Middleware [requireAuth]. *)
Definition requireAuth {B} (next : Handler B) : Handler B :=
  fun req db =>
    if negb (truthy (session_userId req))
    then (db, res_error 401 "Unauthorized")
    else next req db.

(** [try { ... } catch (error) { res.status(code).json({ error:
    error.message || fallback }) }]. *)
Definition try_catch (p : Promise Response) (code : nat) (fallback : string)
  : Db -> Db * Response :=
  fun db =>
    match p db with
    | (db', Fulfilled r) => (db', r)
    | (db', Rejected e) => (db', res_error code (or_string (message e) fallback))
    end.

(** The body of a user form, key by key as it arrived. *)
Module UserBody.
Record t := mk {
  username : option string;
  password : option string;
  email : option string;
  fullName : option string;
  role : option string
}.
End UserBody.

(** The body of an article form after
    [const { tagIds, ...articleData } = req.body]. *)
Module ArticleBody.
Record t := mk {
  articleData : PartialArticle.t;
  tagIds : option (list string)
}.
End ArticleBody.

(** A zod string check [z.string().min(n, msg)] on a required key; string
    lengths are counted in characters of the 8-bit strings used here. *)
Definition z_string_min (n : nat) (msg : string) (v : option string) : list string :=
  match v with
  | None => ["Required"]
  | Some s => if Nat.ltb (String.length s) n then [msg] else []
  end.

(** The message of a [ZodError] lists its issues. *)
Definition zod_result {A} (issues : list string) (a : A) : Promise A :=
  match issues with
  | [] => resolve a
  | _ => throw (ZodError (String.concat "; " issues))
  end.

(** ** server/routes.ts *)

Section Routes.

(** Library code the handlers call: zod's [z.string().email()] test and
    [bcrypt.hash(password, 10)]. *)
Variable is_email : string -> bool.
Variable bcrypt_hash : string -> string.

(** [insertUserSchema.parse(body)]. *)
Definition insertUserSchema_parse (b : UserBody.t) : Promise InsertUser.t :=
  let issues :=
    (z_string_min 3 "Username must be at least 3 characters" (UserBody.username b) ++
     z_string_min 6 "Password must be at least 6 characters" (UserBody.password b) ++
     match UserBody.email b with
     | None => ["Required"]
     | Some e => if is_email e then [] else ["Invalid email address"]
     end ++
     z_string_min 2 "Full name is required" (UserBody.fullName b))%list in
  match UserBody.username b, UserBody.password b,
        UserBody.email b, UserBody.fullName b with
  | Some u, Some p, Some e, Some f =>
      zod_result issues (InsertUser.mk u p e f (UserBody.role b))
  | _, _, _, _ => throw (ZodError (String.concat "; " issues))
  end.

(** [insertArticleSchema.parse(data)]. *)
Definition insertArticleSchema_parse (d : PartialArticle.t) : Promise InsertArticle.t :=
  let issues :=
    (z_string_min 1 "Title is required" (PartialArticle.title d) ++
     z_string_min 1 "Content is required" (PartialArticle.content d) ++
     match PartialArticle.authorId d with None => ["Required"] | Some _ => [] end)%list in
  match PartialArticle.title d, PartialArticle.content d,
        PartialArticle.authorId d with
  | Some t, Some c, Some a =>
      zod_result issues
        (InsertArticle.mk t c (PartialArticle.excerpt d)
           (PartialArticle.coverImage d) (PartialArticle.status d)
           (PartialArticle.categoryId d) a)
  | _, _, _ => throw (ZodError (String.concat "; " issues))
  end.

(** The part of the two user-creating handlers from the schema check to
    [storage.createUser]; [inl response] is an early [return]. *)
Definition check_and_createUser (clk : Clock) (b : UserBody.t)
  : Promise (Response + User.t) :=
  data <- insertUserSchema_parse b ;;
  (* Check if username or email already exists *)
  existingUser <- DatabaseStorage.getUserByUsername (InsertUser.username data) ;;
  match existingUser with
  | Some _ => resolve (inl (res_error 400 "Username already exists"))
  | None =>
    existingEmail <- DatabaseStorage.getUserByEmail (InsertUser.email data) ;;
    match existingEmail with
    | Some _ => resolve (inl (res_error 400 "Email already exists"))
    | None =>
      (* Hash password *)
      let hashedPassword := bcrypt_hash (InsertUser.password data) in
      user <- DatabaseStorage.createUser clk
                (InsertUser.mk (InsertUser.username data) hashedPassword
                   (InsertUser.email data) (InsertUser.fullName data)
                   (InsertUser.role data)) ;;
      resolve (inr user)
    end
  end.

(** [POST /api/auth/register] *)
Definition post_auth_register (clk : Clock) : Handler UserBody.t :=
  fun req =>
    try_catch
      (r <- check_and_createUser clk (req_body req) ;;
       match r with
       | inl early => resolve early
       | inr user =>
           resolve (res_json (JObj [("id", JStr (User.id user));
                                    ("username", JStr (User.username user));
                                    ("email", JStr (User.email user))]))
       end)
      400 "Registration failed".

(** [GET /api/articles] *)
Definition get_articles : Handler unit :=
  requireAuth (fun req =>
    try_catch
      (articles <- DatabaseStorage.getAllArticles ;;
       resolve (res_json (JArr (map ArticleWithRelations_json articles))))
      500 "Failed to fetch articles").

(** [GET /api/articles/recent] *)
Definition get_articles_recent : Handler unit :=
  requireAuth (fun req =>
    try_catch
      (articles <- DatabaseStorage.getRecentArticles 5 ;;
       resolve (res_json (JArr (map ArticleWithRelations_json articles))))
      500 "Failed to fetch recent articles").

(** [GET /api/articles/:id] *)
Definition get_article : Handler unit :=
  requireAuth (fun req =>
    try_catch
      (article <- DatabaseStorage.getArticleById (params_id req) ;;
       match article with
       | None => resolve (res_error 404 "Article not found")
       | Some article =>
         (* Only increment view count if not editing *)
         (if negb (truthy (query_edit req))
          then DatabaseStorage.incrementArticleViews (params_id req)
          else resolve tt) ;;;
         resolve (res_json (ArticleWithRelations_json article))
       end)
      500 "Failed to fetch article").

(** [POST /api/articles] *)
Definition post_articles (clk : Clock) : Handler ArticleBody.t :=
  requireAuth (fun req =>
    try_catch
      (user <- DatabaseStorage.getUser (orElse (session_userId req) "") ;;
       match user with
       | None => resolve (res_error 401 "User not found")
       | Some user =>
         let articleData := ArticleBody.articleData (req_body req) in
         data <- insertArticleSchema_parse
                   (PartialArticle.mk
                      (PartialArticle.title articleData)
                      (PartialArticle.content articleData)
                      (PartialArticle.excerpt articleData)
                      (PartialArticle.coverImage articleData)
                      (PartialArticle.status articleData)
                      (PartialArticle.categoryId articleData)
                      (Some (User.id user))) ;;
         article <- DatabaseStorage.createArticle clk data
                      (ArticleBody.tagIds (req_body req)) ;;
         resolve (res_json (Article_json article))
       end)
      400 "Failed to create article").

(** [PATCH /api/articles/:id] *)
Definition patch_article (clk : Clock) : Handler ArticleBody.t :=
  requireAuth (fun req =>
    try_catch
      (article <- DatabaseStorage.updateArticle clk (params_id req)
                    (ArticleBody.articleData (req_body req))
                    (ArticleBody.tagIds (req_body req)) ;;
       resolve (mkResponse 200 (option_map Article_json article)))
      400 "Failed to update article").

(** [DELETE /api/articles/:id] *)
Definition delete_article : Handler unit :=
  requireAuth (fun req =>
    try_catch
      (DatabaseStorage.deleteArticle (params_id req) ;;;
       resolve (res_json (JObj [("success", JBool true)])))
      500 "Failed to delete article").

(** [GET /api/employees] *)
Definition get_employees : Handler unit :=
  requireAuth (fun req =>
    try_catch
      (employees <- DatabaseStorage.getAllUsers ;;
       (* Don't send passwords *)
       let sanitized := map (fun u => omit "password" (User_json u)) employees in
       resolve (res_json (JArr sanitized)))
      500 "Failed to fetch employees").

(** [POST /api/employees] *)
Definition post_employees (clk : Clock) : Handler UserBody.t :=
  requireAuth (fun req =>
    try_catch
      (r <- check_and_createUser clk (req_body req) ;;
       match r with
       | inl early => resolve early
       | inr employee =>
           (* Don't send password *)
           resolve (res_json (omit "password" (User_json employee)))
       end)
      400 "Failed to create employee").

(** [DELETE /api/employees/:id] *)
Definition delete_employee : Handler unit :=
  requireAuth (fun req =>
    try_catch
      (* Don't allow deleting yourself *)
      (if match session_userId req with
          | Some me => params_id req =? me
          | None => false
          end
       then resolve (res_error 400 "Cannot delete your own account")
       else
         DatabaseStorage.deleteUser (params_id req) ;;;
         resolve (res_json (JObj [("success", JBool true)])))
      500 "Failed to delete employee").

End Routes.

(** ** Vocabulary of the properties *)

(** The link rows of one article, and the tag ids they name. *)
Definition links_of (id : string) (db : Db) : list ArticleTag.t :=
  filter (fun l => ArticleTag.articleId l =? id) (articleTags db).

Definition tagIds_of (id : string) (db : Db) : list string :=
  map ArticleTag.tagId (links_of id db).

(** The link rows of all the other articles. *)
Definition links_of_others (id : string) (db : Db) : list ArticleTag.t :=
  filter (fun l => negb (ArticleTag.articleId l =? id)) (articleTags db).

(** The references an update writes point at stored rows: what the store
    asks of [updateData] to accept the row update. *)
Definition update_refs_ok (db : Db) (updateData : PartialArticle.t) : bool :=
  match PartialArticle.authorId updateData with
  | Some u => has_user db u
  | None => true
  end
  && match PartialArticle.categoryId updateData with
     | Some c => category_ref_ok db c
     | None => true
     end.

(** What the store asks of the tag ids to accept the link rows of article
    [id]: nothing when there is none to insert, else that the article and
    every tag are stored rows. *)
Definition link_refs_ok (db : Db) (id : string) (tagIds : list string) : bool :=
  match tagIds with
  | [] => true
  | _ => has_article db id && forallb (has_tag db) tagIds
  end.

(** Likewise for the row [createArticle] inserts. *)
Definition insert_refs_ok (db : Db) (insertArticle : InsertArticle.t) : bool :=
  has_user db (InsertArticle.authorId insertArticle)
  && category_ref_ok db (orNull (InsertArticle.categoryId insertArticle)).

(** An article row with [n] more views and nothing else changed. *)
Definition add_views (n : Z) (a : Article.t) : Article.t :=
  Article.mk (Article.id a) (Article.title a) (Article.content a)
    (Article.excerpt a) (Article.coverImage a) (Article.status a)
    (Article.categoryId a) (Article.authorId a) (Article.views a + n)%Z
    (Article.createdAt a) (Article.updatedAt a) (Article.publishedAt a).

(** [n] more views for the articles with the given id, the others as they
    are. *)
Definition add_views_to (id : string) (n : Z) (a : Article.t) : Article.t :=
  if Article.id a =? id then add_views n a else a.

(** [n] calls of [incrementArticleViews(id)] in a row. *)
Fixpoint incrementArticleViews_times (n : nat) (id : string) (db : Db) : Db :=
  match n with
  | O => db
  | S n => incrementArticleViews_times n id
             (fst (DatabaseStorage.incrementArticleViews id db))
  end.

(** A history of the store: the mutating storage calls made so far. *)
Inductive Call :=
| CreateUser (clk : Clock) (insertUser : InsertUser.t)
| DeleteUser (id : string)
| CreateCategory (clk : Clock) (insertCategory : InsertCategory.t)
| DeleteCategory (id : string)
| CreateTag (clk : Clock) (insertTag : InsertTag.t)
| DeleteTag (id : string)
| CreateArticle (clk : Clock) (insertArticle : InsertArticle.t)
    (tagIds : option (list string))
| UpdateArticle (clk : Clock) (id : string) (updateData : PartialArticle.t)
    (tagIds : option (list string))
| DeleteArticle (id : string)
| IncrementArticleViews (id : string).

(** The tables a call leaves behind, whether its promise was fulfilled or
    rejected. *)
Definition run_call (c : Call) (db : Db) : Db :=
  match c with
  | CreateUser clk v => fst (DatabaseStorage.createUser clk v db)
  | DeleteUser id => fst (DatabaseStorage.deleteUser id db)
  | CreateCategory clk v => fst (DatabaseStorage.createCategory clk v db)
  | DeleteCategory id => fst (DatabaseStorage.deleteCategory id db)
  | CreateTag clk v => fst (DatabaseStorage.createTag clk v db)
  | DeleteTag id => fst (DatabaseStorage.deleteTag id db)
  | CreateArticle clk v tagIds => fst (DatabaseStorage.createArticle clk v tagIds db)
  | UpdateArticle clk id v tagIds => fst (DatabaseStorage.updateArticle clk id v tagIds db)
  | DeleteArticle id => fst (DatabaseStorage.deleteArticle id db)
  | IncrementArticleViews id => fst (DatabaseStorage.incrementArticleViews id db)
  end.

Fixpoint run (cs : list Call) (db : Db) : Db :=
  match cs with
  | [] => db
  | c :: rest => run rest (run_call c db)
  end.

(** Call [c], made on the tables [db], creates or updates the article
    [aid] with [status == "published"]: it is a [createArticle] that
    carries the status and whose row the store takes in under the key
    [aid], or an [updateArticle] of the stored article [aid] that carries
    the status and whose row update the store accepts. *)
Definition publishes (aid : string) (db : Db) (c : Call) : bool :=
  match c with
  | CreateArticle _ v _ =>
      is_published (InsertArticle.status v)
      && (aid =? uuid (uuids db)) && insert_refs_ok db v
  | UpdateArticle _ id v _ =>
      is_published (PartialArticle.status v)
      && (aid =? id) && has_article db id && update_refs_ok db v
  | _ => false
  end.

(** Some call of the history [cs], started on [db], has created or
    updated article [aid] with [status == "published"]. *)
Fixpoint ever_published (aid : string) (db : Db) (cs : list Call) : bool :=
  match cs with
  | [] => false
  | c :: rest => publishes aid db c || ever_published aid (run_call c db) rest
  end.

(** The invariant behind the history property, for a set [P] of article
    ids: every stored article and every id of [P] carries a key the uuid
    source has already handed out, and a stored article has a [publishedAt]
    exactly when its id is in [P]. *)
Definition keyed (db : Db) (aid : string) : Prop :=
  exists k, k < uuids db /\ aid = uuid k.

Definition published_inv (P : string -> bool) (db : Db) : Prop :=
  (forall a, In a (articles db) -> keyed db (Article.id a))
  /\ (forall aid, P aid = true -> keyed db aid)
  /\ (forall a, In a (articles db) ->
                (Article.publishedAt a <> None <-> P (Article.id a) = true)).

(** A step that adds no article and leaves id and [publishedAt] of the
    stored ones alone. *)
Definition inert (db db' : Db) : Prop :=
  uuids db <= uuids db'
  /\ forall a', In a' (articles db') ->
               exists a, In a (articles db) /\ Article.id a' = Article.id a
                         /\ Article.publishedAt a' = Article.publishedAt a.

(** ** Sample data *)

Module Sample.

Definition clk0 : Clock := mkClock 1000 999.
Definition clk1 : Clock := mkClock 2000 1999.

Definition alice : User.t :=
  User.mk "u1" "alice" "$2a$10$hash" "alice@x.com" "Alice A" "employee" 10.

Definition intro : Tag.t := Tag.mk "t1" "intro" 20.
Definition tutorial : Tag.t := Tag.mk "t2" "tutorial" 21.

Definition hello : Article.t :=
  Article.mk "a1" "Hello" "World" None None "draft" None "u1" 0 30 30 None.

(** A published article at the top of the 32-bit range of [views]. *)
Definition popular : Article.t :=
  Article.mk "a2" "Popular" "Text" None None "published" None "u1"
    2147483647 31 31 (Some 31%Z).

Definition db : Db :=
  mkDb [alice] [] [intro; tutorial] [hello; popular]
       [ArticleTag.mk "l1" "a1" "t1"; ArticleTag.mk "l2" "a1" "t2"] 0.

Definition session {B} (id : string) (b : B) : Request B :=
  mkRequest (Some "u1") id None b.

Definition greeting : InsertArticle.t :=
  InsertArticle.mk "Hi" "There" None None (Some "published") None "u1".

Definition publish : PartialArticle.t :=
  PartialArticle.mk None None None None (Some "published") None None.

Definition unpublish : PartialArticle.t :=
  PartialArticle.mk None None None None (Some "draft") None None.

Definition blank_title : PartialArticle.t :=
  PartialArticle.mk (Some "") None None None None None None.

Definition is_email (s : string) : bool :=
  match index 0 "@" s with Some _ => true | None => false end.

Definition bcrypt_hash (s : string) : string := "$2a$10$" ++ s.

(** A history: alice registers, writes a draft, publishes it and takes
    it back to draft. *)
Definition history : list Call :=
  [CreateUser clk0 (InsertUser.mk "alice" "$2a$10$hash" "alice@x.com" "Alice A" None);
   CreateArticle clk0
     (InsertArticle.mk "Hello" "World" None None (Some "draft") None (uuid 0)) None;
   UpdateArticle clk1 (uuid 1) publish None;
   UpdateArticle (mkClock 3000 2999) (uuid 1) unpublish None].

Definition hello_after : Article.t :=
  Article.mk (uuid 1) "Hello" "World" None None "draft" None (uuid 0) 0
    999 3000 (Some 2000%Z).

(** The walk-through: alice, two tags, a draft with both tags, then
    publish it (tags left out), then one view. *)
Definition walkthrough : list Call :=
  [CreateUser clk0 (InsertUser.mk "alice" "$2a$10$hash" "alice@x.com" "Alice A" None);
   CreateTag clk0 (InsertTag.mk "intro");
   CreateTag clk0 (InsertTag.mk "tutorial");
   CreateArticle clk0
     (InsertArticle.mk "Hello" "World" None None (Some "draft") None (uuid 0))
     (Some [uuid 1; uuid 2])].

Definition register_alice : UserBody.t :=
  UserBody.mk (Some "alice") (Some "secret1") (Some "second@x.com")
    (Some "Alice B") None.

End Sample.

(** ** server/routes.ts: the remaining handlers *)

(** The body of the login form, key by key as it arrived. *)
Module LoginBody.
Record t := mk {
  username : option string;
  password : option string
}.
End LoginBody.

(** [LoginCredentials]. *)
Module LoginCredentials.
Record t := mk {
  username : string;
  password : string
}.
End LoginCredentials.

(** The body of a category form. *)
Module CategoryBody.
Record t := mk {
  name : option string;
  description : option (option string);
  color : option string
}.
End CategoryBody.

(** The body of a tag form. *)
Module TagBody.
Record t := mk { name : option string }.
End TagBody.

(** [loginSchema.parse(body)]. *)
Definition loginSchema_parse (b : LoginBody.t) : Promise LoginCredentials.t :=
  let issues :=
    (z_string_min 1 "Username is required" (LoginBody.username b) ++
     z_string_min 1 "Password is required" (LoginBody.password b))%list in
  match LoginBody.username b, LoginBody.password b with
  | Some u, Some p => zod_result issues (LoginCredentials.mk u p)
  | _, _ => throw (ZodError (String.concat "; " issues))
  end.

(** [insertCategorySchema.parse(body)]: [name] is the one required key, a
    string with no length check. *)
Definition insertCategorySchema_parse (b : CategoryBody.t) : Promise InsertCategory.t :=
  match CategoryBody.name b with
  | Some n => resolve (InsertCategory.mk n (CategoryBody.description b)
                         (CategoryBody.color b))
  | None => throw (ZodError "Required")
  end.

(** [insertTagSchema.parse(body)]. *)
Definition insertTagSchema_parse (b : TagBody.t) : Promise InsertTag.t :=
  match TagBody.name b with
  | Some n => resolve (InsertTag.mk n)
  | None => throw (ZodError "Required")
  end.

(** The object the login and "me" handlers send:
    [{ id, username, email, fullName, role }]. *)
Definition session_user_json (user : User.t) : Json :=
  JObj [("id", JStr (User.id user)); ("username", JStr (User.username user));
        ("email", JStr (User.email user)); ("fullName", JStr (User.fullName user));
        ("role", JStr (User.role user))].

(** A handler that may assign [req.session.userId]: it yields the
    response and the session's user id as the handler leaves it. *)
Definition SessionHandler (B : Type) : Type :=
  Request B -> Db -> Db * (Response * option string).

Section SessionRoutes.

(** [bcrypt.compare(password, hash)]: library code. *)
Variable bcrypt_compare : string -> string -> bool.

(** [POST /api/auth/login] *)
Definition post_auth_login : SessionHandler LoginBody.t :=
  fun req db =>
    match (data <- loginSchema_parse (req_body req) ;;
           user <- DatabaseStorage.getUserByUsername (LoginCredentials.username data) ;;
           match user with
           | None => resolve (res_error 401 "Invalid credentials", session_userId req)
           | Some user =>
             let isValidPassword :=
               bcrypt_compare (LoginCredentials.password data) (User.password user) in
             if negb isValidPassword
             then resolve (res_error 401 "Invalid credentials", session_userId req)
             else
               (* req.session.userId = user.id *)
               resolve (res_json (session_user_json user), Some (User.id user))
           end) db with
    | (db', Fulfilled r) => (db', r)
    | (db', Rejected e) =>
        (db', (res_error 400 (or_string (message e) "Login failed"), session_userId req))
    end.

End SessionRoutes.

(** [GET /api/auth/me].  The handler has no [try]/[catch]: were
    [storage.getUser] to reject, no response would be sent ([None]). *)
Definition get_auth_me (req : Request unit) (db : Db) : Db * option Response :=
  if negb (truthy (session_userId req))
  then (db, Some (res_error 401 "Not authenticated"))
  else
    match DatabaseStorage.getUser (orElse (session_userId req) "") db with
    | (db', Fulfilled None) => (db', Some (res_error 404 "User not found"))
    | (db', Fulfilled (Some user)) => (db', Some (res_json (session_user_json user)))
    | (db', Rejected _) => (db', None)
    end.

(** [GET /api/dashboard/stats].  The counts and the sum are JavaScript
    numbers; they are exact on the integers that occur here, and are kept
    as integers. *)
Definition get_dashboard_stats : Handler unit :=
  requireAuth (fun req =>
    try_catch
      (articles <- DatabaseStorage.getAllArticles ;;
       employees <- DatabaseStorage.getAllUsers ;;
       categories <- DatabaseStorage.getAllCategories ;;
       let publishedArticles :=
         length (filter (fun a => Article.status (ArticleWithRelations.article a)
                                  =? "published") articles) in
       let draftArticles :=
         length (filter (fun a => Article.status (ArticleWithRelations.article a)
                                  =? "draft") articles) in
       let totalViews :=
         fold_left (fun sum a => (sum + Article.views (ArticleWithRelations.article a))%Z)
           articles 0%Z in
       resolve (res_json (JObj [("totalArticles", JNum (Z.of_nat (length articles)));
                                ("publishedArticles", JNum (Z.of_nat publishedArticles));
                                ("draftArticles", JNum (Z.of_nat draftArticles));
                                ("totalEmployees", JNum (Z.of_nat (length employees)));
                                ("totalViews", JNum totalViews);
                                ("totalCategories", JNum (Z.of_nat (length categories)))])))
      500 "Failed to fetch stats").

(** [GET /api/categories] *)
Definition get_categories : Handler unit :=
  requireAuth (fun req =>
    try_catch
      (categories <- DatabaseStorage.getAllCategories ;;
       resolve (res_json (JArr (map Category_json categories))))
      500 "Failed to fetch categories").

(** [POST /api/categories] *)
Definition post_categories (clk : Clock) : Handler CategoryBody.t :=
  requireAuth (fun req =>
    try_catch
      (data <- insertCategorySchema_parse (req_body req) ;;
       category <- DatabaseStorage.createCategory clk data ;;
       resolve (res_json (Category_json category)))
      400 "Failed to create category").

(** [DELETE /api/categories/:id] *)
Definition delete_category : Handler unit :=
  requireAuth (fun req =>
    try_catch
      (DatabaseStorage.deleteCategory (params_id req) ;;;
       resolve (res_json (JObj [("success", JBool true)])))
      500 "Failed to delete category").

(** [GET /api/tags] *)
Definition get_tags : Handler unit :=
  requireAuth (fun req =>
    try_catch
      (tags <- DatabaseStorage.getAllTags ;;
       resolve (res_json (JArr (map Tag_json tags))))
      500 "Failed to fetch tags").

(** [POST /api/tags] *)
Definition post_tags (clk : Clock) : Handler TagBody.t :=
  requireAuth (fun req =>
    try_catch
      (data <- insertTagSchema_parse (req_body req) ;;
       tag <- DatabaseStorage.createTag clk data ;;
       resolve (res_json (Tag_json tag)))
      400 "Failed to create tag").

(** [DELETE /api/tags/:id] *)
Definition delete_tag : Handler unit :=
  requireAuth (fun req =>
    try_catch
      (DatabaseStorage.deleteTag (params_id req) ;;;
       resolve (res_json (JObj [("success", JBool true)])))
      500 "Failed to delete tag").

(** ** client/src/pages/ArticleEditor.tsx *)

(** The state update of [toggleTag(tagId)]:
    [prev.includes(tagId) ? prev.filter((id) => id !== tagId) : [...prev, tagId]]. *)
Definition toggleTag (tagId : string) (prev : list string) : list string :=
  if existsb (fun id => id =? tagId) prev
  then filter (fun id => negb (id =? tagId)) prev
  else (prev ++ [tagId])%list.

(** ** Further vocabulary *)

(** Every reference stored in the tables points at a stored row. *)
Definition refs_inv (db : Db) : Prop :=
  (forall a, In a (articles db) ->
             has_user db (Article.authorId a) = true
             /\ category_ref_ok db (Article.categoryId a) = true)
  /\ (forall l, In l (articleTags db) ->
                has_article db (ArticleTag.articleId l) = true
                /\ has_tag db (ArticleTag.tagId l) = true).

(** The columns declared [unique()] hold no value twice. *)
Definition unique_inv (db : Db) : Prop :=
  NoDup (map User.username (users db))
  /\ NoDup (map User.email (users db))
  /\ NoDup (map Category.name (categories db))
  /\ NoDup (map Tag.name (tags db)).

(** The primary keys of the articles are distinct keys the uuid source
    has handed out. *)
Definition article_keys_inv (db : Db) : Prop :=
  NoDup (map Article.id (articles db))
  /\ forall a, In a (articles db) -> keyed db (Article.id a).

(** Some stored tag (category) has the given name. *)
Definition has_name_tag (name : string) (db : Db) : bool :=
  existsb (fun t => Tag.name t =? name) (tags db).
Definition has_name_category (name : string) (db : Db) : bool :=
  existsb (fun c => Category.name c =? name) (categories db).

(** The sum [articles.reduce((sum, a) => sum + a.views, 0)] over article
    rows. *)
Definition sum_views (l : list Article.t) : Z :=
  fold_left (fun sum a => (sum + Article.views a)%Z) l 0%Z.

(** How many rows have the given status. *)
Definition count_status (s : string) (l : list Article.t) : nat :=
  length (filter (fun a => Article.status a =? s) l).

(** ** Basic facts about the tables and the statements *)

(** Split on every test the goal still branches on. *)
Ltac case_ifs :=
  repeat match goal with |- context [if ?b then _ else _] => destruct b end.

Lemma uuid_inj n m : uuid n = uuid m -> n = m.
Proof.
  unfold uuid. simpl. intros H. injection H as H.
  apply Unsigned.to_uint_inj.
  assert (Hs : Some (Nat.to_uint n) = Some (Nat.to_uint m)).
  { rewrite <- (NilEmpty.usu (Nat.to_uint n)), <- (NilEmpty.usu (Nat.to_uint m)).
    now rewrite H. }
  now injection Hs.
Qed.

Lemma set_articles_same db : set_articles db (articles db) = db.
Proof. now destruct db. Qed.

Lemma filter_nil_existsb {A} (f : A -> bool) l :
  filter f l = [] <-> existsb f l = false.
Proof.
  induction l as [|x l IH]; simpl; [tauto|].
  destruct (f x); simpl; [split; discriminate | exact IH].
Qed.

Lemma map_unhit {A} (f : A -> bool) (g : A -> A) l :
  existsb f l = false -> map (fun a => if f a then g a else a) l = l.
Proof.
  induction l as [|x l IH]; simpl; [reflexivity|].
  destruct (f x); simpl; [discriminate|]. intros H. now rewrite IH.
Qed.

Lemma update_articles_miss s id db :
  has_article db id = false -> update_articles s id db = (db, Fulfilled []).
Proof.
  unfold update_articles, has_article. intros H.
  apply filter_nil_existsb in H. now rewrite H.
Qed.

Lemma update_articles_accepted s id db :
  update_articles_check db s (filter (fun a => Article.id a =? id) (articles db)) = None ->
  update_articles s id db =
    (set_articles db (map (rewrite_row s id) (articles db)),
     Fulfilled (map (ArticleSet.apply s) (filter (fun a => Article.id a =? id) (articles db)))).
Proof.
  intros Hc. unfold update_articles.
  destruct (filter _ (articles db)) as [|h t] eqn:Hf.
  - apply filter_nil_existsb in Hf. unfold rewrite_row.
    rewrite (map_unhit _ _ _ Hf), set_articles_same. reflexivity.
  - rewrite Hc. reflexivity.
Qed.

Lemma update_articles_rejected s id db e :
  has_article db id = true ->
  update_articles_check db s (filter (fun a => Article.id a =? id) (articles db)) = Some e ->
  update_articles s id db = (db, Rejected e).
Proof.
  intros Hh Hc. unfold update_articles.
  destruct (filter _ (articles db)) as [|h t] eqn:Hf.
  - apply filter_nil_existsb in Hf. unfold has_article in Hh. congruence.
  - now rewrite Hc.
Qed.

Lemma update_articles_cases s id db :
  (exists e, update_articles s id db = (db, Rejected e)) \/
  update_articles s id db =
    (set_articles db (map (rewrite_row s id) (articles db)),
     Fulfilled (map (ArticleSet.apply s) (filter (fun a => Article.id a =? id) (articles db)))).
Proof.
  destruct (update_articles_check db s (filter (fun a => Article.id a =? id) (articles db)))
    as [e|] eqn:Hc.
  - destruct (has_article db id) eqn:Hh.
    + left. exists e. now apply update_articles_rejected.
    + right. rewrite (update_articles_miss _ _ _ Hh).
      unfold has_article in Hh. unfold rewrite_row.
      rewrite (map_unhit _ _ _ Hh), set_articles_same.
      apply filter_nil_existsb in Hh. now rewrite Hh.
  - right. now apply update_articles_accepted.
Qed.

Lemma check_updateArticle_set clk upd db hit :
  update_refs_ok db upd = true ->
  update_articles_check db (DatabaseStorage.updateArticle_set clk upd) hit = None.
Proof.
  unfold update_refs_ok, update_articles_check. simpl.
  intros H. apply andb_prop in H as [-> ->]. reflexivity.
Qed.

Lemma check_updateArticle_set_rejects clk upd db hit :
  update_refs_ok db upd = false ->
  exists e, update_articles_check db (DatabaseStorage.updateArticle_set clk upd) hit = Some e.
Proof.
  unfold update_refs_ok, update_articles_check. simpl. intros H.
  destruct (match PartialArticle.authorId upd with Some u => has_user db u | None => true end);
    simpl in *; [|eauto].
  rewrite H. simpl. eauto.
Qed.

(** ** updateArticle *)

Lemma rewrite_row_id s id a : Article.id (rewrite_row s id a) = Article.id a.
Proof. unfold rewrite_row. now destruct (Article.id a =? id). Qed.

Lemma existsb_rewrite_row s id id' l :
  existsb (fun a => Article.id a =? id') (map (rewrite_row s id) l) =
  existsb (fun a => Article.id a =? id') l.
Proof.
  induction l as [|a l IH]; simpl; [reflexivity|].
  now rewrite rewrite_row_id, IH.
Qed.

Lemma updateArticle_articles clk id upd tagIds db :
  articles (fst (DatabaseStorage.updateArticle clk id upd tagIds db)) =
  articles (fst (update_articles (DatabaseStorage.updateArticle_set clk upd) id db)).
Proof.
  unfold DatabaseStorage.updateArticle, await.
  destruct (update_articles _ id db) as [db1 [rows|e]]; [|reflexivity].
  destruct tagIds as [[|t l]|]; simpl; try reflexivity.
  unfold insert_articleTags. simpl.
  case_ifs;
    reflexivity.
Qed.

Lemma updateArticle_rows clk id upd tagIds db :
  articles (fst (DatabaseStorage.updateArticle clk id upd tagIds db)) = articles db \/
  articles (fst (DatabaseStorage.updateArticle clk id upd tagIds db)) =
    map (rewrite_row (DatabaseStorage.updateArticle_set clk upd) id) (articles db).
Proof.
  rewrite updateArticle_articles.
  destruct (update_articles_cases (DatabaseStorage.updateArticle_set clk upd) id db)
    as [[e ->] | ->]; [left | right]; reflexivity.
Qed.

Lemma updateArticle_rows_accepted clk id upd tagIds db :
  update_refs_ok db upd = true ->
  articles (fst (DatabaseStorage.updateArticle clk id upd tagIds db)) =
    map (rewrite_row (DatabaseStorage.updateArticle_set clk upd) id) (articles db).
Proof.
  intros H. rewrite updateArticle_articles, update_articles_accepted; [reflexivity|].
  now apply check_updateArticle_set.
Qed.

Lemma Forall2_map_r {A B} (R : A -> B -> Prop) (f : A -> B) l :
  (forall a, In a l -> R a (f a)) -> Forall2 R l (map f l).
Proof.
  induction l as [|x l IH]; simpl; intros H; constructor; auto.
Qed.

Lemma Forall2_diag {A} (R : A -> A -> Prop) l :
  (forall a, In a l -> R a a) -> Forall2 R l l.
Proof.
  induction l as [|x l IH]; simpl; intros H; constructor; auto.
Qed.

Lemma is_published_spec s : is_published s = true <-> s = Some "published".
Proof.
  destruct s as [s|]; simpl; [|split; discriminate].
  rewrite String.eqb_eq. split; congruence.
Qed.

(** C1. Every [updateArticle] whose fields carry [status == "published"]
    and whose row update the store accepts stamps [publishedAt] of the
    stored article with the [new Date()] of that call, whatever the status
    and the [publishedAt] of the article were before: row by row, the
    article with the given id keeps its id, ends up published and with
    [publishedAt] equal to the time of the call (an earlier stamp is
    overwritten), and every other article is left as it was. *)
Theorem updateArticle_published_restamps clk id upd tagIds db :
  PartialArticle.status upd = Some "published" ->
  update_refs_ok db upd = true ->
  Forall2 (fun a a' =>
             Article.id a' = Article.id a /\
             (Article.id a = id ->
              Article.publishedAt a' = Some (new_Date clk) /\
              Article.status a' = "published") /\
             (Article.id a <> id -> a' = a))
    (articles db)
    (articles (fst (DatabaseStorage.updateArticle clk id upd tagIds db))).
Proof.
  intros Hs Hok. rewrite updateArticle_rows_accepted by exact Hok.
  apply Forall2_map_r. intros a _. unfold rewrite_row.
  destruct (Article.id a =? id) eqn:E.
  - apply String.eqb_eq in E. simpl. rewrite Hs. simpl.
    split; [reflexivity|]. split; [intros _; split; reflexivity|].
    intros Hne. contradiction.
  - apply String.eqb_neq in E.
    split; [reflexivity|]. split; [intros He; contradiction|].
    reflexivity.
Qed.

Lemma updateArticle_published_restamps_witness :
  Forall2 (fun a a' =>
             Article.id a' = Article.id a /\
             (Article.id a = "a2" ->
              Article.publishedAt a' = Some 2000%Z /\
              Article.status a' = "published") /\
             (Article.id a <> "a2" -> a' = a))
    [Sample.hello; Sample.popular]
    (articles (fst (DatabaseStorage.updateArticle Sample.clk1 "a2" Sample.publish
                      None Sample.db))).
Proof.
  apply (updateArticle_published_restamps Sample.clk1 "a2" Sample.publish None Sample.db);
    reflexivity.
Defined.

(** C9. [updateArticle] never clears [publishedAt]: row by row, every
    article keeps its id, an article whose [publishedAt] was non-null
    still has it non-null after the call, and when the fields do not carry
    [status == "published"] (left out, "draft" or anything else)
    [publishedAt] is exactly what it was. *)
Theorem updateArticle_never_clears_publishedAt clk id upd tagIds db :
  Forall2 (fun a a' =>
             Article.id a' = Article.id a /\
             (Article.publishedAt a <> None -> Article.publishedAt a' <> None) /\
             (PartialArticle.status upd <> Some "published" ->
              Article.publishedAt a' = Article.publishedAt a))
    (articles db)
    (articles (fst (DatabaseStorage.updateArticle clk id upd tagIds db))).
Proof.
  destruct (updateArticle_rows clk id upd tagIds db) as [-> | ->].
  - apply Forall2_diag. intros a _. auto.
  - apply Forall2_map_r. intros a _. unfold rewrite_row.
    destruct (Article.id a =? id); [|auto].
    simpl. destruct (is_published (PartialArticle.status upd)) eqn:E; simpl.
    + split; [reflexivity|]. split; [discriminate|].
      intros Hn. apply is_published_spec in E. contradiction.
    + auto.
Qed.

(** ** Link rows *)

Lemma link_rows_tagIds n id l :
  map ArticleTag.tagId (link_rows n (map (fun t => (id, t)) l)) = l.
Proof.
  revert n. induction l as [|t l IH]; intros n; simpl; [reflexivity|].
  now rewrite IH.
Qed.

Lemma link_rows_articleId n id l :
  Forall (fun r => ArticleTag.articleId r = id) (link_rows n (map (fun t => (id, t)) l)).
Proof.
  revert n. induction l as [|t l IH]; intros n; simpl; constructor; auto.
Qed.

Lemma link_rows_length n vs : length (link_rows n vs) = length vs.
Proof.
  revert n. induction vs as [|[a t] vs IH]; intros n; simpl; [reflexivity|].
  now rewrite IH.
Qed.

Lemma filter_all {A} (f : A -> bool) l : Forall (fun x => f x = true) l -> filter f l = l.
Proof.
  induction 1 as [|x l Hx _ IH]; simpl; [reflexivity|]. now rewrite Hx, IH.
Qed.

Lemma filter_none {A} (f : A -> bool) l : Forall (fun x => f x = false) l -> filter f l = [].
Proof.
  induction 1 as [|x l Hx _ IH]; simpl; [reflexivity|]. now rewrite Hx, IH.
Qed.

Lemma filter_filter_negb {A} (f : A -> bool) l :
  filter f (filter (fun x => negb (f x)) l) = [].
Proof.
  apply filter_none, Forall_forall. intros x Hx.
  apply filter_In in Hx as [_ Hx]. now destruct (f x).
Qed.

Lemma filter_idem {A} (f : A -> bool) l : filter f (filter f l) = filter f l.
Proof.
  apply filter_all, Forall_forall. intros x Hx. now apply filter_In in Hx.
Qed.

Lemma links_of_new n id l :
  filter (fun r => ArticleTag.articleId r =? id) (link_rows n (map (fun t => (id, t)) l))
  = link_rows n (map (fun t => (id, t)) l).
Proof.
  apply filter_all. eapply Forall_impl; [|apply link_rows_articleId].
  simpl. intros r ->. apply String.eqb_refl.
Qed.

Lemma links_of_others_new n id l :
  filter (fun r => negb (ArticleTag.articleId r =? id))
    (link_rows n (map (fun t => (id, t)) l)) = [].
Proof.
  apply filter_none. eapply Forall_impl; [|apply link_rows_articleId].
  simpl. intros r ->. now rewrite String.eqb_refl.
Qed.

Lemma forallb_map {A B} (f : B -> bool) (g : A -> B) l :
  forallb f (map g l) = forallb (fun x => f (g x)) l.
Proof. induction l; simpl; congruence. Qed.

Lemma forallb_const {A} (b : bool) (l : list A) :
  l <> [] -> forallb (fun _ => b) l = b.
Proof.
  induction l as [|x [|y l] IH]; simpl in *; intros H; [contradiction| |].
  - now rewrite andb_true_r.
  - rewrite IH by discriminate. now destruct b.
Qed.

(** The accepted multi-row insert of the links of one article. *)
Lemma insert_articleTags_accepted id l db :
  l <> [] -> has_article db id = true -> forallb (has_tag db) l = true ->
  insert_articleTags (map (fun t => (id, t)) l) db =
    (set_articleTags (set_uuids db (uuids db + length l))
       (articleTags db ++ link_rows (uuids db) (map (fun t => (id, t)) l)),
     Fulfilled tt).
Proof.
  intros Hl Ha Ht. unfold insert_articleTags.
  destruct l as [|t l]; [contradiction|].
  remember (t :: l) as l' eqn:El.
  assert (Hne : l' <> []) by (subst; discriminate).
  assert (Ht' : forallb (fun x => has_tag db x) l' = true) by exact Ht.
  rewrite !forallb_map. simpl.
  rewrite (forallb_const _ _ Hne), Ha, Ht'. simpl.
  rewrite length_map. subst l'. reflexivity.
Qed.

(** The same insert for an article that is not stored: rejected, nothing
    inserted. *)
Lemma insert_articleTags_no_article id l db :
  l <> [] -> has_article db id = false ->
  exists e, insert_articleTags (map (fun t => (id, t)) l) db =
              (set_uuids db (uuids db + length l), Rejected e).
Proof.
  intros Hl Ha. unfold insert_articleTags.
  destruct l as [|t l]; [contradiction|].
  remember (t :: l) as l' eqn:El.
  assert (Hne : l' <> []) by (subst; discriminate).
  rewrite !forallb_map. simpl.
  rewrite (forallb_const _ _ Hne), Ha. simpl.
  rewrite length_map. subst l'. eexists. reflexivity.
Qed.

(** C2. [updateArticle] with [tagIds] left out leaves the link rows
    exactly as they were.  With [tagIds] provided (the empty list
    included), and the store accepting the writes, the link table afterwards
    is the links of the other articles, untouched, followed by exactly one
    new row per provided id, in order: all the former links of the article
    are gone and its tag ids are the provided list (none for the empty
    list). *)
Theorem updateArticle_replaces_tags clk id upd tagIds db :
  (forall l, tagIds = Some l ->
             update_refs_ok db upd = true /\ link_refs_ok db id l = true) ->
  let db' := fst (DatabaseStorage.updateArticle clk id upd tagIds db) in
  match tagIds with
  | None => articleTags db' = articleTags db
  | Some l =>
      articleTags db' =
        (links_of_others id db ++ link_rows (uuids db) (map (fun t => (id, t)) l))%list
      /\ links_of id db' = link_rows (uuids db) (map (fun t => (id, t)) l)
      /\ tagIds_of id db' = l
      /\ links_of_others id db' = links_of_others id db
  end.
Proof.
  intros H db'. subst db'. destruct tagIds as [l|].
  - destruct (H l eq_refl) as [Hrow Hlinks].
    assert (Hdb : articleTags (fst (DatabaseStorage.updateArticle clk id upd (Some l) db)) =
      (links_of_others id db ++ link_rows (uuids db) (map (fun t => (id, t)) l))%list).
    { unfold DatabaseStorage.updateArticle, await.
      rewrite update_articles_accepted by now apply check_updateArticle_set.
      unfold delete_articleTags_of, resolve.
      destruct l as [|t l].
      - unfold links_of_others. simpl. now rewrite app_nil_r.
      - remember (t :: l) as l' eqn:El.
        assert (Hne : l' <> []) by (subst; discriminate).
        unfold link_refs_ok in Hlinks. rewrite El in Hlinks. rewrite <- El in Hlinks.
        apply andb_prop in Hlinks as [Ha Ht].
        rewrite El at 1. cbv beta iota. rewrite <- El.
        rewrite insert_articleTags_accepted.
        + reflexivity.
        + exact Hne.
        + unfold has_article in *. simpl. now rewrite existsb_rewrite_row.
        + exact Ht. }
    split; [exact Hdb|].
    unfold tagIds_of, links_of, links_of_others in *. rewrite Hdb.
    rewrite !filter_app, filter_filter_negb, filter_idem, links_of_new, links_of_others_new.
    simpl. rewrite app_nil_r, link_rows_tagIds. auto.
  - unfold DatabaseStorage.updateArticle, await.
    destruct (update_articles_cases (DatabaseStorage.updateArticle_set clk upd) id db)
      as [[e ->] | ->]; reflexivity.
Qed.

Lemma updateArticle_replaces_tags_witness :
  tagIds_of "a1" (fst (DatabaseStorage.updateArticle Sample.clk1 "a1"
                         PartialArticle.empty (Some ["t2"]) Sample.db)) = ["t2"]
  /\ tagIds_of "a1" Sample.db = ["t1"; "t2"].
Proof.
  split; [|reflexivity].
  destruct (updateArticle_replaces_tags Sample.clk1 "a1" PartialArticle.empty
              (Some ["t2"]) Sample.db) as (_ & _ & H & _).
  - intros l E. injection E as <-. split; reflexivity.
  - exact H.
Defined.

(** ** createArticle *)

Lemma insert_articles_accepted clk v pub db :
  insert_refs_ok db v = true ->
  insert_articles clk v pub db =
    (set_articles (set_uuids db (S (uuids db)))
       (articles db ++ [article_row (uuid (uuids db)) clk v pub]),
     Fulfilled (article_row (uuid (uuids db)) clk v pub)).
Proof.
  intros H. apply andb_prop in H as [Hu Hc].
  unfold insert_articles, await, gen_random_uuid.
  change (has_user (set_uuids db (S (uuids db)))) with (has_user db).
  change (category_ref_ok (set_uuids db (S (uuids db)))) with (category_ref_ok db).
  cbn [article_row Article.authorId Article.categoryId].
  now rewrite Hu, Hc.
Qed.

Lemma insert_articles_rejected clk v pub db :
  insert_refs_ok db v = false ->
  exists e, insert_articles clk v pub db = (set_uuids db (S (uuids db)), Rejected e).
Proof.
  intros H. unfold insert_refs_ok in H.
  unfold insert_articles, await, gen_random_uuid.
  change (has_user (set_uuids db (S (uuids db)))) with (has_user db).
  change (category_ref_ok (set_uuids db (S (uuids db)))) with (category_ref_ok db).
  cbn [article_row Article.authorId Article.categoryId].
  destruct (has_user db (InsertArticle.authorId v)); simpl in *; [|eauto].
  rewrite H. simpl. eauto.
Qed.

(** C6. When the store accepts the writes, [createArticle] appends one
    article row, whose [publishedAt] is the [new Date()] of the call when
    the supplied status is "published" and null otherwise (status left out
    included); it appends exactly one link row per supplied tag id, in
    order, each naming the new article (none when [tagIds] is left out or
    empty); and its promise is fulfilled with that article row, a plain
    [Article] with no tag objects. *)
Theorem createArticle_inserts clk v tagIds db :
  insert_refs_ok db v = true ->
  forallb (has_tag db) (orElse tagIds []) = true ->
  exists article db' rows,
    DatabaseStorage.createArticle clk v tagIds db = (db', Fulfilled article)
    /\ articles db' = (articles db ++ [article])%list
    /\ (InsertArticle.status v = Some "published" ->
        Article.publishedAt article = Some (new_Date clk))
    /\ (InsertArticle.status v <> Some "published" ->
        Article.publishedAt article = None)
    /\ articleTags db' = (articleTags db ++ rows)%list
    /\ map ArticleTag.tagId rows = orElse tagIds []
    /\ Forall (fun r => ArticleTag.articleId r = Article.id article) rows.
Proof.
  intros Hrefs Htags.
  unfold DatabaseStorage.createArticle, await.
  rewrite insert_articles_accepted by exact Hrefs.
  set (row := article_row _ _ _ _).
  assert (Hpub1 : InsertArticle.status v = Some "published" ->
                  Article.publishedAt row = Some (new_Date clk)).
  { intros E. apply is_published_spec in E. subst row. simpl. now rewrite E. }
  assert (Hpub2 : InsertArticle.status v <> Some "published" ->
                  Article.publishedAt row = None).
  { intros E. subst row. simpl. destruct (is_published _) eqn:P; [|reflexivity].
    apply is_published_spec in P. contradiction. }
  destruct tagIds as [[|t l]|].
  - exists row, (set_articles (set_uuids db (S (uuids db))) (articles db ++ [row])), [].
    cbn. rewrite app_nil_r. repeat split; auto.
  - cbv beta iota. remember (t :: l) as l' eqn:El.
    assert (Hne : l' <> []) by (subst; discriminate).
    rewrite insert_articleTags_accepted.
    + eexists row, _, _. split; [reflexivity|].
      cbn [articles articleTags fst set_articleTags set_articles set_uuids].
      repeat split; auto.
      * apply link_rows_tagIds.
      * apply link_rows_articleId.
    + exact Hne.
    + unfold has_article. cbn [articles set_articles]. rewrite existsb_app. simpl.
      now rewrite String.eqb_refl, !orb_true_r.
    + exact Htags.
  - exists row, (set_articles (set_uuids db (S (uuids db))) (articles db ++ [row])), [].
    cbn. rewrite app_nil_r. repeat split; auto.
Qed.

Lemma createArticle_inserts_witness :
  exists article db' rows,
    DatabaseStorage.createArticle Sample.clk0 Sample.greeting (Some ["t1"; "t2"]) Sample.db
      = (db', Fulfilled article)
    /\ articles db' = (articles Sample.db ++ [article])%list
    /\ (InsertArticle.status Sample.greeting = Some "published" ->
        Article.publishedAt article = Some (new_Date Sample.clk0))
    /\ (InsertArticle.status Sample.greeting <> Some "published" ->
        Article.publishedAt article = None)
    /\ articleTags db' = (articleTags Sample.db ++ rows)%list
    /\ map ArticleTag.tagId rows = ["t1"; "t2"]
    /\ Forall (fun r => ArticleTag.articleId r = Article.id article) rows.
Proof.
  apply (createArticle_inserts Sample.clk0 Sample.greeting (Some ["t1"; "t2"]) Sample.db);
    reflexivity.
Defined.

(** ** incrementArticleViews *)

Lemma rewrite_row_increment id a :
  rewrite_row DatabaseStorage.incrementArticleViews_set id a = add_views_to id 1 a.
Proof. reflexivity. Qed.

Lemma check_increment db id :
  (forall a, In a (articles db) -> Article.id a = id ->
             (-2147483648 <= Article.views a < 2147483647)%Z) ->
  update_articles_check db DatabaseStorage.incrementArticleViews_set
    (filter (fun a => Article.id a =? id) (articles db)) = None.
Proof.
  intros H. unfold update_articles_check. simpl.
  replace (forallb _ _) with true; [reflexivity|].
  symmetry. apply forallb_forall. intros a Ha.
  apply filter_In in Ha as [Hin Hid]. apply String.eqb_eq in Hid.
  specialize (H a Hin Hid). unfold int4_ok.
  apply andb_true_intro. split; apply Z.leb_le; lia.
Qed.

(** One call, accepted by the store. *)
Lemma incrementArticleViews_once id db :
  (forall a, In a (articles db) -> Article.id a = id ->
             (-2147483648 <= Article.views a < 2147483647)%Z) ->
  DatabaseStorage.incrementArticleViews id db =
    (set_articles db (map (add_views_to id 1) (articles db)), Fulfilled tt).
Proof.
  intros H. unfold DatabaseStorage.incrementArticleViews, await.
  rewrite update_articles_accepted by now apply check_increment.
  reflexivity.
Qed.

(** At the top of the range the store rejects the update and the row
    stays as it is. *)
Lemma incrementArticleViews_at_int4_max :
  DatabaseStorage.incrementArticleViews "a2" Sample.db
  = (Sample.db, Rejected IntegerOutOfRange).
Proof. reflexivity. Qed.

Lemma add_views_to_twice id n m a :
  add_views_to id m (add_views_to id n a) = add_views_to id (n + m) a.
Proof.
  unfold add_views_to. destruct (Article.id a =? id) eqn:E.
  - simpl. rewrite E. unfold add_views. simpl. now rewrite Z.add_assoc.
  - now rewrite E.
Qed.

Lemma add_views_to_zero id l : map (add_views_to id 0) l = l.
Proof.
  induction l as [|a l IH]; simpl; [reflexivity|]. rewrite IH. f_equal.
  unfold add_views_to, add_views. destruct (Article.id a =? id); [|reflexivity].
  destruct a; simpl. now rewrite Z.add_0_r.
Qed.

Lemma incrementArticleViews_times_spec n id db :
  (forall a, In a (articles db) -> Article.id a = id ->
             (-2147483648 <= Article.views a)%Z /\
             (Article.views a + Z.of_nat n <= 2147483647)%Z) ->
  incrementArticleViews_times n id db =
    set_articles db (map (add_views_to id (Z.of_nat n)) (articles db)).
Proof.
  revert db. induction n as [|n IH]; intros db H.
  - cbn [incrementArticleViews_times Z.of_nat].
    now rewrite add_views_to_zero, set_articles_same.
  - cbn [incrementArticleViews_times]. rewrite incrementArticleViews_once.
    + cbn [fst]. rewrite IH.
      * unfold set_articles. cbn [articles users categories tags articleTags uuids].
        rewrite map_map. f_equal. apply map_ext. intros a.
        rewrite add_views_to_twice. f_equal. lia.
      * cbn [set_articles articles]. intros a' Ha' Hid.
        apply in_map_iff in Ha' as (a & <- & Ha).
        unfold add_views_to in *. destruct (Article.id a =? id) eqn:E.
        -- apply String.eqb_eq in E. specialize (H a Ha E). simpl. lia.
        -- apply String.eqb_neq in E. contradiction.
    + intros a Ha Hid. specialize (H a Ha Hid). lia.
Qed.

(** C7. While the counter stays within the 32-bit range of the column,
    each call of [incrementArticleViews] is one [UPDATE] whose new value is
    computed by the store from the row itself, [views + 1]: the call is
    fulfilled, every article with the given id gets exactly one more view
    and is otherwise the same row, every other article and every other
    table is as before; and [n] calls in a row add exactly [n], one each. *)
Theorem incrementArticleViews_adds_one_each n id db :
  (forall a, In a (articles db) -> Article.id a = id ->
             (-2147483648 <= Article.views a)%Z /\
             (Article.views a + Z.of_nat (S n) <= 2147483647)%Z) ->
  DatabaseStorage.incrementArticleViews id db =
    (set_articles db (map (add_views_to id 1) (articles db)), Fulfilled tt)
  /\ Forall2 (fun a a' =>
                (Article.id a = id -> a' = add_views 1 a) /\
                (Article.id a <> id -> a' = a))
       (articles db) (articles (fst (DatabaseStorage.incrementArticleViews id db)))
  /\ incrementArticleViews_times (S n) id db =
       set_articles db (map (add_views_to id (Z.of_nat (S n))) (articles db))
  /\ Forall2 (fun a a' =>
                (Article.id a = id -> a' = add_views (Z.of_nat (S n)) a) /\
                (Article.id a <> id -> a' = a))
       (articles db) (articles (incrementArticleViews_times (S n) id db)).
Proof.
  intros H.
  assert (H1 : DatabaseStorage.incrementArticleViews id db =
    (set_articles db (map (add_views_to id 1) (articles db)), Fulfilled tt)).
  { apply incrementArticleViews_once. intros a Ha Hid. specialize (H a Ha Hid). lia. }
  assert (Hrows : forall k, Forall2 (fun a a' =>
                (Article.id a = id -> a' = add_views k a) /\
                (Article.id a <> id -> a' = a))
       (articles db) (map (add_views_to id k) (articles db))).
  { intros k. apply Forall2_map_r. intros a _. unfold add_views_to.
    destruct (Article.id a =? id) eqn:E.
    - apply String.eqb_eq in E. split; [reflexivity | contradiction].
    - apply String.eqb_neq in E. split; [contradiction | reflexivity]. }
  split; [exact H1|]. rewrite H1. split; [apply Hrows|].
  rewrite incrementArticleViews_times_spec by exact H.
  split; [reflexivity | apply Hrows].
Qed.

Lemma incrementArticleViews_adds_one_each_witness :
  map Article.views (articles (incrementArticleViews_times 3 "a1" Sample.db))
  = [3%Z; 2147483647%Z].
Proof.
  destruct (incrementArticleViews_adds_one_each 2 "a1" Sample.db) as (_ & _ & H & _).
  - intros a [<- | [<- | []]]; simpl; intros E; [lia | discriminate].
  - rewrite H. reflexivity.
Defined.

(** ** Routes *)

Lemma existsb_find {A} (f : A -> bool) l :
  existsb f l = true -> exists x, find f l = Some x.
Proof.
  induction l as [|x l IH]; simpl; [discriminate|].
  destruct (f x); [eauto | exact IH].
Qed.

Lemma z_string_min_ok n msg s :
  n <= String.length s -> z_string_min n msg (Some s) = [].
Proof.
  intros H. unfold z_string_min.
  destruct (Nat.ltb_spec (String.length s) n); [lia | reflexivity].
Qed.

Section RouteFacts.

Variable is_email : string -> bool.
Variable bcrypt_hash : string -> string.

(** The schema check reads no table and writes none. *)
Lemma insertUserSchema_parse_cases b db :
  (exists e, insertUserSchema_parse is_email b db = (db, Rejected e)) \/
  (exists data, insertUserSchema_parse is_email b db = (db, Fulfilled data) /\
                UserBody.username b = Some (InsertUser.username data)).
Proof.
  unfold insertUserSchema_parse.
  destruct (UserBody.username b) as [u|]; [|left; eexists; reflexivity].
  destruct (UserBody.password b) as [p|]; [|left; eexists; reflexivity].
  destruct (UserBody.email b) as [e|]; [|left; eexists; reflexivity].
  destruct (UserBody.fullName b) as [f|]; [|left; eexists; reflexivity].
  unfold zod_result.
  match goal with |- context [match ?l with [] => _ | _ :: _ => _ end] =>
    destruct l end.
  - right. eexists. split; reflexivity.
  - left. eexists. reflexivity.
Qed.

Lemma insertUserSchema_parse_valid name pw e fn role db :
  3 <= String.length name -> 6 <= String.length pw ->
  is_email e = true -> 2 <= String.length fn ->
  insertUserSchema_parse is_email
    (UserBody.mk (Some name) (Some pw) (Some e) (Some fn) role) db =
    (db, Fulfilled (InsertUser.mk name pw e fn role)).
Proof.
  intros H1 H2 H3 H4. unfold insertUserSchema_parse.
  cbn [UserBody.username UserBody.password UserBody.email UserBody.fullName UserBody.role].
  rewrite !z_string_min_ok, H3 by assumption. reflexivity.
Qed.

(** C8. Registering with a username some stored user already has is
    answered with status 400 and leaves every table, and the uuid
    counter, as they were: no insert is attempted.  When the body passes
    the schema check, the answer is the conflict message "Username
    already exists". *)
Theorem register_existing_username_rejected clk (req : Request UserBody.t) db name :
  UserBody.username (req_body req) = Some name ->
  existsb (fun u => User.username u =? name) (users db) = true ->
  fst (post_auth_register is_email bcrypt_hash clk req db) = db
  /\ status (snd (post_auth_register is_email bcrypt_hash clk req db)) = 400
  /\ (forall pw e fn,
        UserBody.password (req_body req) = Some pw ->
        UserBody.email (req_body req) = Some e ->
        UserBody.fullName (req_body req) = Some fn ->
        3 <= String.length name -> 6 <= String.length pw ->
        is_email e = true -> 2 <= String.length fn ->
        snd (post_auth_register is_email bcrypt_hash clk req db) =
          res_error 400 "Username already exists").
Proof.
  intros Hname Hex. apply existsb_find in Hex as [u Hu].
  assert (Hfound : forall data,
    insertUserSchema_parse is_email (req_body req) db = (db, Fulfilled data) ->
    UserBody.username (req_body req) = Some (InsertUser.username data) ->
    post_auth_register is_email bcrypt_hash clk req db =
      (db, res_error 400 "Username already exists")).
  { intros data Hp Hd. rewrite Hname in Hd. injection Hd as Hd.
    unfold post_auth_register, try_catch, check_and_createUser, await.
    rewrite Hp. unfold DatabaseStorage.getUserByUsername.
    rewrite <- Hd, Hu. reflexivity. }
  destruct (insertUserSchema_parse_cases (req_body req) db)
    as [[e He] | [data [Hd Hn]]].
  - assert (Hr : post_auth_register is_email bcrypt_hash clk req db =
                 (db, res_error 400 (or_string (message e) "Registration failed"))).
    { unfold post_auth_register, try_catch, check_and_createUser, await.
      now rewrite He. }
    rewrite Hr. split; [reflexivity|]. split; [reflexivity|].
    intros pw em fn Hpw Hem Hfn L1 L2 L3 L4.
    destruct (req_body req) as [bu bp be bf br]. simpl in *. subst.
    rewrite insertUserSchema_parse_valid in He by assumption. discriminate.
  - rewrite (Hfound data Hd Hn). repeat split; reflexivity.
Qed.

End RouteFacts.

Lemma register_existing_username_rejected_witness :
  post_auth_register Sample.is_email Sample.bcrypt_hash Sample.clk1
    (mkRequest None "" None Sample.register_alice) Sample.db
  = (Sample.db, res_error 400 "Username already exists").
Proof.
  destruct (register_existing_username_rejected Sample.is_email Sample.bcrypt_hash
              Sample.clk1 (mkRequest None "" None Sample.register_alice)
              Sample.db "alice" eq_refl eq_refl) as (Hdb & _ & Hres).
  specialize (Hres "secret1" "second@x.com" "Alice B" eq_refl eq_refl eq_refl).
  rewrite (surjective_pairing (post_auth_register _ _ _ _ _)), Hdb, Hres;
    [reflexivity | simpl; lia | simpl; lia | reflexivity | simpl; lia].
Defined.

(** The employee list never carries a password key. *)
Lemma get_employees_strips_password req db j :
  body (snd (get_employees req db)) = Some j -> mentions "password" j = false.
Proof.
  unfold get_employees, requireAuth.
  destruct (negb (truthy (session_userId req))); simpl.
  - intros H. injection H as <-. reflexivity.
  - intros H. injection H as <-. simpl.
    induction (orderBy (desc User.createdAt) (users db)) as [|u l IH];
      simpl; [reflexivity | exact IH].
Qed.

(** C3, at a concrete request.  [PATCH /api/articles/:id] hands the body
    to the store without any schema check: a blank title, which
    [insertArticleSchema] refuses ("Title is required"), is written to the
    stored article and answered with 200, while [POST /api/articles]
    answers the same fields with 400 and writes no article. *)
Theorem patch_article_skips_validation :
  let req := Sample.session "a1" (ArticleBody.mk Sample.blank_title None) in
  status (snd (patch_article Sample.clk1 req Sample.db)) = 200
  /\ map Article.title (articles (fst (patch_article Sample.clk1 req Sample.db)))
     = [""; "Popular"]
  /\ map Article.title (articles Sample.db) = ["Hello"; "Popular"]
  /\ status (snd (post_articles Sample.clk1 req Sample.db)) = 400
  /\ articles (fst (post_articles Sample.clk1 req Sample.db)) = articles Sample.db.
Proof. repeat split; vm_compute; reflexivity. Qed.

(** C4, at a concrete request.  [GET /api/articles] sends each article
    with its author row inlined as it is stored: the author's password
    hash is in the response. *)
Theorem get_articles_sends_author_password :
  exists fields author rest,
    body (snd (get_articles (Sample.session "" tt) Sample.db))
      = Some (JArr (JObj fields :: rest))
    /\ In ("author", JObj author) fields
    /\ In ("password", JStr (User.password Sample.alice)) author
    /\ mentions "password" (JArr (JObj fields :: rest)) = true.
Proof.
  vm_compute. do 3 eexists. split; [reflexivity|].
  split; [do 12 right; left; reflexivity|].
  split; [do 2 right; left; reflexivity|].
  reflexivity.
Qed.

(** ** updateArticle on an id no article has *)

(** C10, as stated, fails: for an id no article has and a non-empty
    [tagIds], the insert of the link rows is rejected by the store, no link
    row is added and the handler answers 400, not success. *)
Lemma patch_article_unknown_id_with_tags_is_400 :
  has_article Sample.db "ghost" = false
  /\ status (snd (patch_article Sample.clk1
                    (Sample.session "ghost" (ArticleBody.mk Sample.publish (Some ["t1"])))
                    Sample.db)) = 400
  /\ status (snd (patch_article Sample.clk1
                    (Sample.session "ghost" (ArticleBody.mk Sample.publish (Some ["t1"])))
                    Sample.db)) <> 200
  /\ articleTags (fst (patch_article Sample.clk1
                    (Sample.session "ghost" (ArticleBody.mk Sample.publish (Some ["t1"])))
                    Sample.db)) = articleTags Sample.db.
Proof. repeat split; vm_compute; congruence. Qed.

(** C10, amended.  For an id no article has, [updateArticle] never
    signals "not found" and the handler never answers 404.  The row update
    changes no article.  With [tagIds] left out the promise is fulfilled
    with [undefined] and nothing is written; with the empty list the links
    carrying that id are deleted and the promise is fulfilled with
    [undefined]; in both cases the handler answers 200 with an empty body.
    With a non-empty list the delete is executed too and the insert is
    attempted, but the store rejects it (the article reference points
    nowhere): no link row is added, the promise is rejected and the
    handler answers 400 with the store's message. *)
Theorem updateArticle_unknown_id clk (req : Request ArticleBody.t) db :
  truthy (session_userId req) = true ->
  has_article db (params_id req) = false ->
  let id := params_id req in
  let updateData := ArticleBody.articleData (req_body req) in
  let tagIds := ArticleBody.tagIds (req_body req) in
  articles (fst (DatabaseStorage.updateArticle clk id updateData tagIds db)) = articles db
  /\ status (snd (patch_article clk req db)) <> 404
  /\ match tagIds with
     | None =>
         DatabaseStorage.updateArticle clk id updateData tagIds db = (db, Fulfilled None)
         /\ patch_article clk req db = (db, mkResponse 200 None)
     | Some [] =>
         DatabaseStorage.updateArticle clk id updateData tagIds db
           = (set_articleTags db (links_of_others id db), Fulfilled None)
         /\ patch_article clk req db
           = (set_articleTags db (links_of_others id db), mkResponse 200 None)
     | Some (t :: l) =>
         exists e,
           DatabaseStorage.updateArticle clk id updateData tagIds db
             = (set_uuids (set_articleTags db (links_of_others id db))
                  (uuids db + length (t :: l)), Rejected e)
           /\ patch_article clk req db
             = (set_uuids (set_articleTags db (links_of_others id db))
                  (uuids db + length (t :: l)),
                res_error 400 (or_string (message e) "Failed to update article"))
     end.
Proof.
  intros Hs Hmiss id updateData tagIds.
  assert (Hpatch : patch_article clk req db =
    try_catch
      (article <- DatabaseStorage.updateArticle clk id updateData tagIds ;;
       resolve (mkResponse 200 (option_map Article_json article)))
      400 "Failed to update article" db).
  { unfold patch_article, requireAuth. now rewrite Hs. }
  assert (Hcases :
    match tagIds with
    | None =>
        DatabaseStorage.updateArticle clk id updateData tagIds db = (db, Fulfilled None)
    | Some [] =>
        DatabaseStorage.updateArticle clk id updateData tagIds db
          = (set_articleTags db (links_of_others id db), Fulfilled None)
    | Some (t :: l) =>
        exists e,
          DatabaseStorage.updateArticle clk id updateData tagIds db
            = (set_uuids (set_articleTags db (links_of_others id db))
                 (uuids db + length (t :: l)), Rejected e)
    end).
  { unfold DatabaseStorage.updateArticle, await.
    rewrite (update_articles_miss _ _ _ Hmiss).
    destruct tagIds as [[|t l]|]; try reflexivity.
    unfold delete_articleTags_of. cbv beta iota.
    destruct (insert_articleTags_no_article id (t :: l)
                (set_articleTags db (links_of_others id db))) as [e He];
      [discriminate | exact Hmiss |].
    exists e. unfold links_of_others in *. rewrite He. reflexivity. }
  split.
  { rewrite updateArticle_articles, (update_articles_miss _ _ _ Hmiss). reflexivity. }
  rewrite Hpatch. unfold try_catch, await.
  destruct tagIds as [[|t l]|].
  - rewrite Hcases. simpl. repeat split; try discriminate; reflexivity.
  - destruct Hcases as [e He]. rewrite He. simpl.
    split; [discriminate|]. exists e. split; reflexivity.
  - rewrite Hcases. simpl. repeat split; try discriminate; reflexivity.
Qed.

Lemma updateArticle_unknown_id_witness :
  status (snd (patch_article Sample.clk1
                 (Sample.session "ghost" (ArticleBody.mk Sample.publish (Some [])))
                 Sample.db)) <> 404
  /\ patch_article Sample.clk1
       (Sample.session "ghost" (ArticleBody.mk Sample.publish None)) Sample.db
     = (Sample.db, mkResponse 200 None).
Proof.
  split.
  - exact (proj1 (proj2 (updateArticle_unknown_id Sample.clk1
             (Sample.session "ghost" (ArticleBody.mk Sample.publish (Some [])))
             Sample.db eq_refl eq_refl))).
  - exact (proj2 (proj2 (proj2 (updateArticle_unknown_id Sample.clk1
             (Sample.session "ghost" (ArticleBody.mk Sample.publish None))
             Sample.db eq_refl eq_refl)))).
Defined.

(** ** Histories *)

Lemma inert_refl db : inert db db.
Proof. split; [lia|]. intros a Ha. exists a. auto. Qed.

Lemma inert_same db db' :
  uuids db <= uuids db' -> articles db' = articles db -> inert db db'.
Proof. intros Hu Ha. split; [exact Hu|]. rewrite Ha. intros a Hin. exists a. auto. Qed.

Lemma insert_articleTags_same vs db :
  articles (fst (insert_articleTags vs db)) = articles db
  /\ uuids db <= uuids (fst (insert_articleTags vs db)).
Proof.
  unfold insert_articleTags. destruct vs as [|v vs]; [simpl; split; [reflexivity | lia]|].
  case_ifs;
    simpl; split; try reflexivity; lia.
Qed.

Lemma inert_createUser clk v db : inert db (fst (DatabaseStorage.createUser clk v db)).
Proof.
  apply inert_same; unfold DatabaseStorage.createUser, insert_users, await, gen_random_uuid;
    case_ifs;
    simpl; auto.
Qed.

Lemma inert_createCategory clk v db :
  inert db (fst (DatabaseStorage.createCategory clk v db)).
Proof.
  apply inert_same;
    unfold DatabaseStorage.createCategory, insert_categories, await, gen_random_uuid;
    case_ifs;
    simpl; auto.
Qed.

Lemma inert_createTag clk v db : inert db (fst (DatabaseStorage.createTag clk v db)).
Proof.
  apply inert_same; unfold DatabaseStorage.createTag, insert_tags, await, gen_random_uuid;
    case_ifs;
    simpl; auto.
Qed.

Lemma inert_deleteUser id db : inert db (fst (DatabaseStorage.deleteUser id db)).
Proof.
  apply inert_same; unfold DatabaseStorage.deleteUser, delete_users;
    case_ifs;
    simpl; auto.
Qed.

Lemma inert_deleteCategory id db : inert db (fst (DatabaseStorage.deleteCategory id db)).
Proof.
  apply inert_same; unfold DatabaseStorage.deleteCategory, delete_categories;
    case_ifs;
    simpl; auto.
Qed.

Lemma inert_deleteTag id db : inert db (fst (DatabaseStorage.deleteTag id db)).
Proof. apply inert_same; reflexivity. Qed.

Lemma inert_deleteArticle id db : inert db (fst (DatabaseStorage.deleteArticle id db)).
Proof.
  split; [simpl; lia|]. simpl. intros a Ha. apply filter_In in Ha as [Ha _].
  exists a. auto.
Qed.

Lemma inert_incrementArticleViews id db :
  inert db (fst (DatabaseStorage.incrementArticleViews id db)).
Proof.
  unfold DatabaseStorage.incrementArticleViews, await.
  destruct (update_articles_cases DatabaseStorage.incrementArticleViews_set id db)
    as [[e ->] | ->]; [apply inert_refl|].
  split; [simpl; lia|]. simpl. intros a' Ha'.
  apply in_map_iff in Ha' as (a & <- & Ha). exists a. split; [exact Ha|].
  unfold rewrite_row. destruct (Article.id a =? id); auto.
Qed.

Lemma updateArticle_uuids clk id upd tagIds db :
  uuids db <= uuids (fst (DatabaseStorage.updateArticle clk id upd tagIds db)).
Proof.
  unfold DatabaseStorage.updateArticle, await.
  destruct (update_articles_cases (DatabaseStorage.updateArticle_set clk upd) id db)
    as [[e ->] | ->]; [simpl; lia|].
  destruct tagIds as [[|t l]|]; try (simpl; lia).
  unfold delete_articleTags_of. cbv beta iota.
  match goal with |- context [insert_articleTags ?vs ?d] =>
    pose proof (insert_articleTags_same vs d) as [_ Hu];
    destruct (insert_articleTags vs d) as [d' [[]|e]] end;
    simpl in *; lia.
Qed.

Lemma updateArticle_rows_refused clk id upd tagIds db :
  update_refs_ok db upd = false ->
  articles (fst (DatabaseStorage.updateArticle clk id upd tagIds db)) = articles db.
Proof.
  intros H. rewrite updateArticle_articles.
  destruct (has_article db id) eqn:Hh.
  - destruct (check_updateArticle_set_rejects clk upd db
                (filter (fun a => Article.id a =? id) (articles db)) H) as [e He].
    now rewrite (update_articles_rejected _ _ _ _ Hh He).
  - now rewrite (update_articles_miss _ _ _ Hh).
Qed.

Lemma createArticle_refused clk v tagIds db :
  insert_refs_ok db v = false ->
  fst (DatabaseStorage.createArticle clk v tagIds db) = set_uuids db (S (uuids db)).
Proof.
  intros H. unfold DatabaseStorage.createArticle, await.
  destruct (insert_articles_rejected clk v
              (if is_published (InsertArticle.status v) then Some (new_Date clk) else None)
              db H) as [e ->].
  reflexivity.
Qed.

Lemma createArticle_rows clk v tagIds db :
  insert_refs_ok db v = true ->
  articles (fst (DatabaseStorage.createArticle clk v tagIds db)) =
    (articles db ++
     [article_row (uuid (uuids db)) clk v
        (if is_published (InsertArticle.status v) then Some (new_Date clk) else None)])%list
  /\ S (uuids db) <= uuids (fst (DatabaseStorage.createArticle clk v tagIds db)).
Proof.
  intros H. unfold DatabaseStorage.createArticle, await.
  rewrite insert_articles_accepted by exact H.
  destruct tagIds as [[|t l]|]; try (simpl; split; [reflexivity | lia]).
  cbv beta iota.
  match goal with |- context [insert_articleTags ?vs ?d] =>
    pose proof (insert_articleTags_same vs d) as [Ha Hu];
    destruct (insert_articleTags vs d) as [d' [[]|e]] end;
    simpl in *; split; auto; lia.
Qed.

Lemma keyed_mono db db' aid : uuids db <= uuids db' -> keyed db aid -> keyed db' aid.
Proof. intros Hu (k & Hk & ->). exists k. split; [lia | reflexivity]. Qed.

Lemma keyed_fresh db : ~ keyed db (uuid (uuids db)).
Proof. intros (k & Hk & E). apply uuid_inj in E. lia. Qed.

Lemma published_inv_ext P Q db :
  (forall aid, P aid = Q aid) -> published_inv P db -> published_inv Q db.
Proof.
  intros E (H1 & H2 & H3). split; [exact H1|]. split.
  - intros aid. rewrite <- E. apply H2.
  - intros a Ha. rewrite <- E. now apply H3.
Qed.

Lemma published_inv_inert P db db' :
  inert db db' -> published_inv P db -> published_inv P db'.
Proof.
  intros [Hu Hrows] (H1 & H2 & H3). split; [|split].
  - intros a' Ha'. destruct (Hrows a' Ha') as (a & Ha & -> & _).
    eapply keyed_mono; eauto.
  - intros aid Hp. eapply keyed_mono; eauto.
  - intros a' Ha'. destruct (Hrows a' Ha') as (a & Ha & -> & ->). now apply H3.
Qed.

Lemma has_article_In db id :
  has_article db id = true <-> exists a, In a (articles db) /\ Article.id a = id.
Proof.
  unfold has_article. rewrite existsb_exists.
  split; intros (a & Ha & E); exists a; split; auto; now apply String.eqb_eq.
Qed.

(** One call keeps the invariant, the set growing by the ids the call
    publishes. *)
Lemma published_inv_step P c db :
  published_inv P db ->
  published_inv (fun aid => P aid || publishes aid db c) (run_call c db).
Proof.
  intros Hinv.
  assert (Hinert : inert db (run_call c db) ->
                   (forall aid, publishes aid db c = false) ->
                   published_inv (fun aid => P aid || publishes aid db c) (run_call c db)).
  { intros Hi Hp. apply published_inv_ext with (P := P).
    - intros aid. now rewrite Hp, orb_false_r.
    - now apply published_inv_inert with (db := db). }
  destruct c as [clk v | id | clk v | id | clk v | id
                | clk v tagIds | clk id v tagIds | id | id];
    try (apply Hinert; [|reflexivity]; simpl).
  - apply inert_createUser.
  - apply inert_deleteUser.
  - apply inert_createCategory.
  - apply inert_deleteCategory.
  - apply inert_createTag.
  - apply inert_deleteTag.
  - (* createArticle *)
    destruct Hinv as (H1 & H2 & H3). cbn [run_call publishes].
    destruct (insert_refs_ok db v) eqn:Hok.
    + destruct (createArticle_rows clk v tagIds db Hok) as [Hrows Hu].
      assert (Hle : uuids db <= uuids (fst (DatabaseStorage.createArticle clk v tagIds db)))
        by lia.
      split; [|split].
      * intros a Ha. rewrite Hrows in Ha. apply in_app_iff in Ha as [Ha | [<- | []]].
        -- eapply keyed_mono; eauto.
        -- exists (uuids db). split; [lia | reflexivity].
      * intros aid Hp. apply orb_prop in Hp as [Hp | Hp].
        -- eapply keyed_mono; eauto.
        -- apply andb_prop in Hp as [Hp _]. apply andb_prop in Hp as [_ Hp].
           apply String.eqb_eq in Hp. subst aid.
           exists (uuids db). split; [lia | reflexivity].
      * intros a Ha. rewrite Hrows in Ha. apply in_app_iff in Ha as [Ha | [<- | []]].
        -- assert (Hne : (Article.id a =? uuid (uuids db)) = false).
           { apply String.eqb_neq. intros E. apply (keyed_fresh db).
             rewrite <- E. now apply H1. }
           rewrite Hne, andb_false_r, orb_false_r. now apply H3.
        -- cbn [article_row Article.id Article.publishedAt].
           assert (Hp : P (uuid (uuids db)) = false).
           { destruct (P (uuid (uuids db))) eqn:E; [|reflexivity].
             exfalso. apply (keyed_fresh db). now apply H2. }
           rewrite Hp, String.eqb_refl, !andb_true_r. cbn [orb].
           destruct (is_published (InsertArticle.status v)); split; congruence.
    + rewrite (createArticle_refused clk v tagIds db Hok).
      apply published_inv_ext with (P := P).
      * intros aid. now rewrite !andb_false_r, orb_false_r.
      * apply published_inv_inert with (db := db); [|exact (conj H1 (conj H2 H3))].
        apply inert_same; simpl; auto.
  - (* updateArticle *)
    pose proof (updateArticle_uuids clk id v tagIds db) as Hu.
    destruct Hinv as (H1 & H2 & H3). cbn [run_call publishes].
    destruct (update_refs_ok db v) eqn:Hok.
    + pose proof (updateArticle_rows_accepted clk id v tagIds db Hok) as Hrows.
      split; [|split].
      * intros a' Ha'. rewrite Hrows in Ha'. apply in_map_iff in Ha' as (a & <- & Ha).
        rewrite rewrite_row_id. eapply keyed_mono; eauto.
      * intros aid Hp. apply orb_prop in Hp as [Hp | Hp].
        -- eapply keyed_mono; eauto.
        -- apply andb_prop in Hp as [Hp _]. apply andb_prop in Hp as [Hp Hh].
           apply andb_prop in Hp as [_ Hp]. apply String.eqb_eq in Hp. subst aid.
           apply has_article_In in Hh as (a & Ha & <-).
           eapply keyed_mono; eauto.
      * intros a' Ha'. rewrite Hrows in Ha'. apply in_map_iff in Ha' as (a & <- & Ha).
        rewrite rewrite_row_id, andb_true_r. unfold rewrite_row.
        destruct (Article.id a =? id) eqn:E.
        -- apply String.eqb_eq in E.
           assert (Hh : has_article db id = true)
             by (apply has_article_In; eauto).
           rewrite Hh, andb_true_r. simpl.
           destruct (is_published (PartialArticle.status v)); simpl.
           ++ rewrite orb_true_r. split; congruence.
           ++ rewrite orb_false_r. now apply H3.
        -- rewrite andb_false_r, orb_false_r. simpl. now apply H3.
    + apply published_inv_ext with (P := P).
      * intros aid. now rewrite !andb_false_r, orb_false_r.
      * apply published_inv_inert with (db := db); [|exact (conj H1 (conj H2 H3))].
        apply inert_same; [exact Hu|]. now apply updateArticle_rows_refused.
  - apply inert_deleteArticle.
  - apply inert_incrementArticleViews.
Qed.

Lemma published_inv_run cs : forall P db,
  published_inv P db ->
  published_inv (fun aid => P aid || ever_published aid db cs) (run cs db).
Proof.
  induction cs as [|c cs IH]; intros P db Hinv; simpl.
  - apply published_inv_ext with (P := P); [|exact Hinv].
    intros aid. now rewrite orb_false_r.
  - apply published_inv_ext
      with (P := fun aid => (P aid || publishes aid db c)
                            || ever_published aid (run_call c db) cs).
    + intros aid. now rewrite orb_assoc.
    + apply IH. now apply published_inv_step.
Qed.

Lemma published_inv_emptyDb : published_inv (fun _ => false) emptyDb.
Proof. repeat split; simpl; try contradiction; try discriminate; intros; congruence. Qed.

(** C5. After any history of storage calls on an empty store, a stored
    article has a non-null [publishedAt] exactly when some call of the
    history created it, or updated it, with [status == "published"]; so an
    article (a draft in particular) that no call has ever published has
    [publishedAt] null. *)
Theorem publishedAt_iff_ever_published cs a :
  In a (articles (run cs emptyDb)) ->
  (Article.publishedAt a <> None <->
   ever_published (Article.id a) emptyDb cs = true)
  /\ (Article.status a = "draft" ->
      ever_published (Article.id a) emptyDb cs = false ->
      Article.publishedAt a = None).
Proof.
  intros Ha.
  destruct (published_inv_run cs _ _ published_inv_emptyDb) as (_ & _ & H).
  specialize (H a Ha). simpl in H. split; [exact H|].
  intros _ Hn. destruct (Article.publishedAt a) as [d|]; [|reflexivity].
  assert (Some d <> None) as Hd by discriminate.
  apply H in Hd. congruence.
Qed.

(** The walk-through, step by step: the draft has no [publishedAt], no
    views and both tags; publishing stamps it and keeps the tags; one view
    makes the counter 1; an update with the empty tag list clears the
    tags. *)
Example walkthrough_steps :
  let db1 := run Sample.walkthrough emptyDb in
  let db2 := run_call (UpdateArticle Sample.clk1 (uuid 3) Sample.publish None) db1 in
  let db3 := run_call (IncrementArticleViews (uuid 3)) db2 in
  let db4 := run_call (UpdateArticle Sample.clk1 (uuid 3) PartialArticle.empty (Some [])) db3 in
  map (fun a => (Article.publishedAt a, Article.views a)) (articles db1)
    = [(None, 0%Z)]
  /\ tagIds_of (uuid 3) db1 = [uuid 1; uuid 2]
  /\ map (fun a => (Article.publishedAt a, Article.views a)) (articles db2)
    = [(Some 2000%Z, 0%Z)]
  /\ tagIds_of (uuid 3) db2 = [uuid 1; uuid 2]
  /\ map (fun a => (Article.publishedAt a, Article.views a)) (articles db3)
    = [(Some 2000%Z, 1%Z)]
  /\ tagIds_of (uuid 3) db4 = []
  /\ articleTags db4 = [].
Proof. repeat split; vm_compute; reflexivity. Qed.

Lemma publishedAt_iff_ever_published_witness :
  run Sample.history emptyDb
    = mkDb [User.mk (uuid 0) "alice" "$2a$10$hash" "alice@x.com" "Alice A" "employee" 999]
        [] [] [Sample.hello_after] [] 2
  /\ (Article.publishedAt Sample.hello_after <> None <->
      ever_published (Article.id Sample.hello_after) emptyDb Sample.history = true).
Proof.
  split; [reflexivity|].
  apply (publishedAt_iff_ever_published Sample.history Sample.hello_after).
  left. reflexivity.
Defined.

(** ** Deleting rows *)

Lemma existsb_filter_negb {A} (f : A -> bool) l :
  existsb f (filter (fun x => negb (f x)) l) = false.
Proof.
  induction l as [|x l IH]; simpl; [reflexivity|].
  destruct (f x) eqn:E; simpl; [exact IH | now rewrite E].
Qed.

(** X1. [deleteArticle] is always fulfilled; afterwards no article has
    the id and no link row names it, the other articles and the links of
    the other articles are exactly as before, and users, categories and
    tags are untouched. *)
Theorem deleteArticle_cascades id db :
  exists db',
    DatabaseStorage.deleteArticle id db = (db', Fulfilled tt)
    /\ has_article db' id = false
    /\ links_of id db' = []
    /\ (forall a, In a (articles db') <-> In a (articles db) /\ Article.id a <> id)
    /\ links_of_others id db' = links_of_others id db
    /\ articleTags db' = links_of_others id db
    /\ users db' = users db /\ categories db' = categories db /\ tags db' = tags db.
Proof.
  eexists. split; [reflexivity|]. cbn [articles articleTags users categories tags
    set_articles set_articleTags].
  split; [apply existsb_filter_negb|].
  split; [unfold links_of; cbn [articleTags set_articleTags]; apply filter_filter_negb|].
  split.
  { intros a. cbn [articles set_articles set_articleTags]. rewrite filter_In.
    split; intros [Ha Hid]; (split; [exact Ha|]).
    - intros E. apply String.eqb_eq in E. now rewrite E in Hid.
    - apply String.eqb_neq in Hid. now rewrite Hid. }
  split; [unfold links_of_others; cbn [articleTags set_articleTags]; apply filter_idem|].
  repeat split.
Qed.

(** X2. [deleteTag] is always fulfilled; it removes the tag and every
    link row that names it, and leaves the articles, and the links to
    other tags of every article, exactly as they were. *)
Theorem deleteTag_cascades id db :
  exists db',
    DatabaseStorage.deleteTag id db = (db', Fulfilled tt)
    /\ has_tag db' id = false
    /\ articles db' = articles db
    /\ users db' = users db /\ categories db' = categories db
    /\ (forall l, In l (articleTags db') <->
                  In l (articleTags db) /\ ArticleTag.tagId l <> id)
    /\ (forall aid, tagIds_of aid db' =
                    filter (fun t => negb (t =? id)) (tagIds_of aid db)).
Proof.
  eexists. split; [reflexivity|].
  split; [apply existsb_filter_negb|].
  do 3 (split; [reflexivity|]).
  split.
  { intros l. cbn [articleTags set_articleTags]. rewrite filter_In.
    split; intros [Hl Hid]; (split; [exact Hl|]).
    - intros E. apply String.eqb_eq in E. now rewrite E in Hid.
    - apply String.eqb_neq in Hid. now rewrite Hid. }
  intros aid. unfold tagIds_of, links_of. cbn [articleTags set_articleTags].
  induction (articleTags db) as [|l ls IH]; simpl; [reflexivity|].
  destruct (ArticleTag.tagId l =? id) eqn:Et, (ArticleTag.articleId l =? aid) eqn:Ea;
    simpl; rewrite ?Ea, ?Et; simpl; now rewrite IH.
Qed.

(** X3. [deleteUser] of a stored user who still authors an article is
    rejected and changes nothing; otherwise it is fulfilled, removes the
    users with that id and touches no other table. *)
Theorem deleteUser_guarded id db :
  (has_user db id = true ->
   (exists a, In a (articles db) /\ Article.authorId a = id) ->
   exists e, DatabaseStorage.deleteUser id db = (db, Rejected e))
  /\ ((forall a, In a (articles db) -> Article.authorId a <> id) ->
      DatabaseStorage.deleteUser id db =
        (set_users db (filter (fun u => negb (User.id u =? id)) (users db)),
         Fulfilled tt)).
Proof.
  unfold DatabaseStorage.deleteUser, delete_users. split.
  - intros Hu (a & Ha & Hid). rewrite Hu.
    replace (existsb _ (articles db)) with true; [simpl; eauto|].
    symmetry. apply existsb_exists. exists a. split; [exact Ha|].
    now apply String.eqb_eq.
  - intros H. replace (existsb _ (articles db)) with false;
      [now rewrite andb_false_r|].
    symmetry. apply not_true_is_false. intros E.
    apply existsb_exists in E as (a & Ha & Hid). apply String.eqb_eq in Hid.
    now apply (H a Ha).
Qed.

Lemma deleteUser_guarded_witness :
  exists e, DatabaseStorage.deleteUser "u1" Sample.db = (Sample.db, Rejected e).
Proof.
  apply (proj1 (deleteUser_guarded "u1" Sample.db)); [reflexivity|].
  exists Sample.hello. split; [left; reflexivity | reflexivity].
Defined.

(** ** The tables a storage call leaves behind *)

Lemma insert_articleTags_shape vs db :
  let db' := fst (insert_articleTags vs db) in
  users db' = users db /\ categories db' = categories db /\ tags db' = tags db
  /\ articles db' = articles db
  /\ (articleTags db' = articleTags db
      \/ (articleTags db' = (articleTags db ++ link_rows (uuids db) vs)%list
          /\ forallb (fun v => has_article db (fst v)) vs = true
          /\ forallb (fun v => has_tag db (snd v)) vs = true)).
Proof.
  unfold insert_articleTags. destruct vs as [|v vs]; [simpl; auto 10|].
  destruct (forallb (fun v => has_article db (fst v)) (v :: vs)) eqn:Ha;
    [|simpl; auto 10].
  destruct (forallb (fun v => has_tag db (snd v)) (v :: vs)) eqn:Ht;
    simpl; auto 10.
Qed.

Lemma link_rows_In n vs r :
  In r (link_rows n vs) -> In (ArticleTag.articleId r, ArticleTag.tagId r) vs.
Proof.
  revert n. induction vs as [|[a t] vs IH]; intros n; simpl; [tauto|].
  intros [<- | H]; [left; reflexivity | right; eauto].
Qed.

Lemma createArticle_shape clk v tagIds db :
  let db' := fst (DatabaseStorage.createArticle clk v tagIds db) in
  let row := article_row (uuid (uuids db)) clk v
               (if is_published (InsertArticle.status v)
                then Some (new_Date clk) else None) in
  users db' = users db /\ categories db' = categories db /\ tags db' = tags db
  /\ ((insert_refs_ok db v = false
       /\ articles db' = articles db /\ articleTags db' = articleTags db)
      \/ (insert_refs_ok db v = true
          /\ articles db' = (articles db ++ [row])%list
          /\ (articleTags db' = articleTags db
              \/ exists n l,
                   articleTags db' =
                     (articleTags db ++
                      link_rows n (map (fun t => (Article.id row, t)) l))%list
                   /\ forallb (has_tag db) l = true))).
Proof.
  intros db' row. subst db'.
  destruct (insert_refs_ok db v) eqn:Hok.
  - unfold DatabaseStorage.createArticle, await.
    rewrite insert_articles_accepted by exact Hok. fold row.
    destruct tagIds as [[|t l]|]; try solve [simpl; auto 10].
    cbv beta iota.
    match goal with |- context [insert_articleTags ?vs ?d] =>
      pose proof (insert_articleTags_shape vs d) as (Hu & Hc & Ht & Ha & Hl);
      destruct (insert_articleTags vs d) as [d' [[]|e]] end;
      cbn [fst resolve] in *; rewrite Hu, Hc, Ht, Ha;
      (do 3 (split; [reflexivity|])); right; (split; [reflexivity|]);
      (split; [reflexivity|]);
      (destruct Hl as [-> | (-> & _ & Htags)];
       [left; reflexivity
       | right; exists (S (uuids db)), (t :: l); split; [reflexivity|];
         rewrite forallb_map in Htags; exact Htags]).
  - rewrite (createArticle_refused clk v tagIds db Hok). simpl. auto 10.
Qed.

Lemma updateArticle_shape clk id upd tagIds db :
  let db' := fst (DatabaseStorage.updateArticle clk id upd tagIds db) in
  users db' = users db /\ categories db' = categories db /\ tags db' = tags db
  /\ (articles db' = articles db
      \/ (update_refs_ok db upd = true
          /\ articles db' =
               map (rewrite_row (DatabaseStorage.updateArticle_set clk upd) id)
                 (articles db)))
  /\ (articleTags db' = articleTags db
      \/ articleTags db' = links_of_others id db
      \/ exists n l,
           articleTags db' =
             (links_of_others id db ++ link_rows n (map (fun t => (id, t)) l))%list
           /\ has_article db id = true /\ forallb (has_tag db) l = true).
Proof.
  intros db'. subst db'.
  assert (Hrows : articles (fst (DatabaseStorage.updateArticle clk id upd tagIds db))
                  = articles db
      \/ (update_refs_ok db upd = true
          /\ articles (fst (DatabaseStorage.updateArticle clk id upd tagIds db)) =
               map (rewrite_row (DatabaseStorage.updateArticle_set clk upd) id)
                 (articles db))).
  { destruct (update_refs_ok db upd) eqn:Hok.
    - right. split; [reflexivity|]. now apply updateArticle_rows_accepted.
    - left. now apply updateArticle_rows_refused. }
  unfold DatabaseStorage.updateArticle, await in *.
  destruct (update_articles_cases (DatabaseStorage.updateArticle_set clk upd) id db)
    as [[e He] | He]; rewrite He in *; [simpl; auto 10|].
  destruct tagIds as [[|t l]|]; try solve [simpl in *; auto 10].
  unfold delete_articleTags_of in *. cbv beta iota in *.
  match goal with |- context [insert_articleTags ?vs ?d] =>
    pose proof (insert_articleTags_shape vs d) as (Hu & Hc & Ht & Ha & Hl);
    destruct (insert_articleTags vs d) as [d' [[]|e]] end;
    cbn [fst resolve] in *; rewrite Hu, Hc, Ht;
    (do 3 (split; [reflexivity|])); (split; [exact Hrows|]);
    (destruct Hl as [-> | (-> & Harts & Htags)];
     [right; left; reflexivity
     | right; right; exists (uuids db), (t :: l); split; [reflexivity|];
       rewrite forallb_map in Harts, Htags; split;
       [ cbn [forallb fst] in Harts; apply andb_prop in Harts as [Harts _];
         unfold has_article in *; cbn [articles set_articles set_articleTags] in Harts;
         now rewrite existsb_rewrite_row in Harts
       | exact Htags ]]).
Qed.

Lemma insert_users_shape clk v db :
  let db' := fst (insert_users clk v db) in
  categories db' = categories db /\ tags db' = tags db
  /\ articles db' = articles db /\ articleTags db' = articleTags db
  /\ (users db' = users db
      \/ exists row,
           users db' = (users db ++ [row])%list
           /\ User.username row = InsertUser.username v
           /\ User.email row = InsertUser.email v
           /\ existsb (fun u => User.username u =? InsertUser.username v) (users db) = false
           /\ existsb (fun u => User.email u =? InsertUser.email v) (users db) = false).
Proof.
  unfold insert_users, await, gen_random_uuid. cbv beta iota.
  cbn [users set_uuids].
  destruct (existsb (fun u => User.username u =? InsertUser.username v) (users db)) eqn:Hu;
    [simpl; auto 10|].
  destruct (existsb (fun u => User.email u =? InsertUser.email v) (users db)) eqn:He;
    [simpl; auto 10|].
  simpl. do 4 (split; [reflexivity|]). right. eexists. split; [reflexivity|]. auto.
Qed.

Lemma insert_categories_shape clk v db :
  let db' := fst (insert_categories clk v db) in
  users db' = users db /\ tags db' = tags db
  /\ articles db' = articles db /\ articleTags db' = articleTags db
  /\ (categories db' = categories db
      \/ exists row,
           categories db' = (categories db ++ [row])%list
           /\ Category.name row = InsertCategory.name v
           /\ existsb (fun c => Category.name c =? InsertCategory.name v)
                (categories db) = false).
Proof.
  unfold insert_categories, await, gen_random_uuid. cbv beta iota.
  cbn [categories set_uuids].
  destruct (existsb (fun c => Category.name c =? InsertCategory.name v) (categories db))
    eqn:Hn; [simpl; auto 10|].
  simpl. do 4 (split; [reflexivity|]). right. eexists. split; [reflexivity|]. auto.
Qed.

Lemma insert_tags_shape clk v db :
  let db' := fst (insert_tags clk v db) in
  users db' = users db /\ categories db' = categories db
  /\ articles db' = articles db /\ articleTags db' = articleTags db
  /\ (tags db' = tags db
      \/ exists row,
           tags db' = (tags db ++ [row])%list
           /\ Tag.name row = InsertTag.name v
           /\ existsb (fun t => Tag.name t =? InsertTag.name v) (tags db) = false).
Proof.
  unfold insert_tags, await, gen_random_uuid. cbv beta iota.
  cbn [tags set_uuids].
  destruct (existsb (fun t => Tag.name t =? InsertTag.name v) (tags db))
    eqn:Hn; [simpl; auto 10|].
  simpl. do 4 (split; [reflexivity|]). right. eexists. split; [reflexivity|]. auto.
Qed.

Lemma delete_users_shape id db :
  let db' := fst (delete_users id db) in
  categories db' = categories db /\ tags db' = tags db
  /\ articles db' = articles db /\ articleTags db' = articleTags db
  /\ (users db' = users db
      \/ (users db' = filter (fun u => negb (User.id u =? id)) (users db)
          /\ (has_user db id = false
              \/ forall a, In a (articles db) -> Article.authorId a <> id))).
Proof.
  unfold delete_users.
  destruct (has_user db id) eqn:Hu; simpl.
  - destruct (existsb (fun a => Article.authorId a =? id) (articles db)) eqn:He;
      simpl; [auto 10|].
    do 4 (split; [reflexivity|]). right. split; [reflexivity|]. right.
    intros a Ha E. apply String.eqb_eq in E.
    assert (existsb (fun a => Article.authorId a =? id) (articles db) = true)
      by (apply existsb_exists; eauto).
    congruence.
  - do 4 (split; [reflexivity|]). right. auto.
Qed.

Lemma delete_categories_shape id db :
  let db' := fst (delete_categories id db) in
  users db' = users db /\ tags db' = tags db
  /\ articles db' = articles db /\ articleTags db' = articleTags db
  /\ (categories db' = categories db
      \/ (categories db' = filter (fun c => negb (Category.id c =? id)) (categories db)
          /\ (has_category db id = false
              \/ forall a, In a (articles db) -> Article.categoryId a <> Some id))).
Proof.
  unfold delete_categories.
  destruct (has_category db id) eqn:Hu; simpl.
  - match goal with |- context [existsb ?f (articles db)] =>
      destruct (existsb f (articles db)) eqn:He end; simpl; [auto 10|].
    do 4 (split; [reflexivity|]). right. split; [reflexivity|]. right.
    intros a Ha E.
    assert (existsb (fun a => match Article.categoryId a with
                              | Some c => c =? id | None => false end)
              (articles db) = true).
    { apply existsb_exists. exists a. split; [exact Ha|]. rewrite E.
      apply String.eqb_refl. }
    congruence.
  - do 4 (split; [reflexivity|]). right. auto.
Qed.

Lemma existsb_filter_other {A} (key : A -> string) x y l :
  x <> y ->
  existsb (fun u => key u =? x) (filter (fun u => negb (key u =? y)) l)
  = existsb (fun u => key u =? x) l.
Proof.
  intros Hne. induction l as [|u l IH]; simpl; [reflexivity|].
  destruct (key u =? y) eqn:Ey; simpl.
  - apply String.eqb_eq in Ey. rewrite IH.
    replace (key u =? x) with false; [reflexivity|].
    symmetry. apply String.eqb_neq. congruence.
  - now rewrite IH.
Qed.

Lemma existsb_app_l {A} (f : A -> bool) l l' :
  existsb f l = true -> existsb f (l ++ l') = true.
Proof. intros H. rewrite existsb_app, H. reflexivity. Qed.

(** ** Referential integrity along a history *)

Lemma refs_inv_mono db db' :
  articles db' = articles db -> articleTags db' = articleTags db ->
  (forall x, has_user db x = true -> has_user db' x = true) ->
  (forall x, has_category db x = true -> has_category db' x = true) ->
  (forall x, has_tag db x = true -> has_tag db' x = true) ->
  refs_inv db -> refs_inv db'.
Proof.
  intros Ha Hl Hu Hc Ht [H1 H2]. split.
  - rewrite Ha. intros a Hin. destruct (H1 a Hin) as [Hau Hac]. split; [auto|].
    unfold category_ref_ok in *. destruct (Article.categoryId a); auto.
  - rewrite Hl. intros l Hin. destruct (H2 l Hin) as [Hla Hlt]. split; [|auto].
    unfold has_article in *. now rewrite Ha.
Qed.

Lemma refs_inv_createUser clk v db :
  refs_inv db -> refs_inv (fst (DatabaseStorage.createUser clk v db)).
Proof.
  unfold DatabaseStorage.createUser.
  destruct (insert_users_shape clk v db) as (Hc & Ht & Ha & Hl & Hu).
  apply refs_inv_mono; auto; unfold has_user, has_category, has_tag;
    rewrite ?Hc, ?Ht; auto.
  intros x Hx. destruct Hu as [-> | (row & -> & _)]; [auto|].
  now apply existsb_app_l.
Qed.

Lemma refs_inv_createCategory clk v db :
  refs_inv db -> refs_inv (fst (DatabaseStorage.createCategory clk v db)).
Proof.
  unfold DatabaseStorage.createCategory.
  destruct (insert_categories_shape clk v db) as (Hu & Ht & Ha & Hl & Hc).
  apply refs_inv_mono; auto; unfold has_user, has_category, has_tag;
    rewrite ?Hu, ?Ht; auto.
  intros x Hx. destruct Hc as [-> | (row & -> & _)]; [auto|].
  now apply existsb_app_l.
Qed.

Lemma refs_inv_createTag clk v db :
  refs_inv db -> refs_inv (fst (DatabaseStorage.createTag clk v db)).
Proof.
  unfold DatabaseStorage.createTag.
  destruct (insert_tags_shape clk v db) as (Hu & Hc & Ha & Hl & Ht).
  apply refs_inv_mono; auto; unfold has_user, has_category, has_tag;
    rewrite ?Hu, ?Hc; auto.
  intros x Hx. destruct Ht as [-> | (row & -> & _)]; [auto|].
  now apply existsb_app_l.
Qed.

Lemma refs_inv_deleteUser id db :
  refs_inv db -> refs_inv (fst (DatabaseStorage.deleteUser id db)).
Proof.
  intros Hinv. unfold DatabaseStorage.deleteUser.
  destruct (delete_users_shape id db) as (Hc & Ht & Ha & Hl & Hu).
  destruct Hinv as [H1 H2]. split.
  - rewrite Ha. intros a Hin. destruct (H1 a Hin) as [Hau Hac]. split.
    + unfold has_user in *. destruct Hu as [-> | [-> Hfree]]; [exact Hau|].
      rewrite (existsb_filter_other User.id); [exact Hau|].
      destruct Hfree as [Hno | Hfree]; [|now apply Hfree].
      intros E. rewrite E in Hau. unfold has_user in Hno. congruence.
    + unfold category_ref_ok, has_category in *. now rewrite Hc.
  - rewrite Hl. intros l Hin. destruct (H2 l Hin) as [Hla Hlt].
    unfold has_article, has_tag in *. now rewrite Ha, Ht.
Qed.

Lemma refs_inv_deleteCategory id db :
  refs_inv db -> refs_inv (fst (DatabaseStorage.deleteCategory id db)).
Proof.
  intros Hinv. unfold DatabaseStorage.deleteCategory.
  destruct (delete_categories_shape id db) as (Hu & Ht & Ha & Hl & Hc).
  destruct Hinv as [H1 H2]. split.
  - rewrite Ha. intros a Hin. destruct (H1 a Hin) as [Hau Hac]. split.
    + unfold has_user in *. now rewrite Hu.
    + unfold category_ref_ok, has_category in *.
      destruct (Article.categoryId a) as [c|] eqn:Ec; [|reflexivity].
      destruct Hc as [-> | [-> Hfree]]; [exact Hac|].
      rewrite (existsb_filter_other Category.id); [exact Hac|].
      destruct Hfree as [Hno | Hfree].
      * intros E. rewrite E in Hac. unfold has_category in Hno. congruence.
      * intros E. apply (Hfree a Hin). congruence.
  - rewrite Hl. intros l Hin. destruct (H2 l Hin) as [Hla Hlt].
    unfold has_article, has_tag in *. now rewrite Ha, Ht.
Qed.

Lemma refs_inv_deleteTag id db :
  refs_inv db -> refs_inv (fst (DatabaseStorage.deleteTag id db)).
Proof.
  intros [H1 H2]. split.
  - intros a Hin. exact (H1 a Hin).
  - cbn [fst DatabaseStorage.deleteTag delete_tags articleTags set_articleTags].
    intros l Hin. apply filter_In in Hin as [Hin Hne].
    destruct (H2 l Hin) as [Hla Hlt]. split; [exact Hla|].
    unfold has_tag in *. cbn [tags set_tags set_articleTags].
    rewrite (existsb_filter_other Tag.id); [exact Hlt|].
    intros E. apply String.eqb_eq in E. now rewrite E in Hne.
Qed.

Lemma refs_inv_deleteArticle id db :
  refs_inv db -> refs_inv (fst (DatabaseStorage.deleteArticle id db)).
Proof.
  intros [H1 H2]. split.
  - cbn [fst DatabaseStorage.deleteArticle delete_articles articles set_articles
           set_articleTags].
    intros a Hin. apply filter_In in Hin as [Hin _]. exact (H1 a Hin).
  - cbn [fst DatabaseStorage.deleteArticle delete_articles articleTags set_articleTags].
    intros l Hin. apply filter_In in Hin as [Hin Hne].
    destruct (H2 l Hin) as [Hla Hlt]. split; [|exact Hlt].
    unfold has_article in *. cbn [articles set_articles set_articleTags].
    rewrite (existsb_filter_other Article.id); [exact Hla|].
    intros E. apply String.eqb_eq in E. now rewrite E in Hne.
Qed.

Lemma refs_inv_rewrite_rows s id db :
  (forall a, In a (articles db) ->
             has_user db (Article.authorId (rewrite_row s id a)) = true
             /\ category_ref_ok db (Article.categoryId (rewrite_row s id a)) = true) ->
  refs_inv db -> refs_inv (set_articles db (map (rewrite_row s id) (articles db))).
Proof.
  intros Hrows [H1 H2]. split.
  - cbn [articles set_articles]. intros a' Hin.
    apply in_map_iff in Hin as (a & <- & Hin). exact (Hrows a Hin).
  - cbn [articleTags set_articles]. intros l Hin.
    destruct (H2 l Hin) as [Hla Hlt]. split; [|exact Hlt].
    unfold has_article in *. cbn [articles set_articles].
    now rewrite existsb_rewrite_row.
Qed.

Lemma refs_inv_incrementArticleViews id db :
  refs_inv db -> refs_inv (fst (DatabaseStorage.incrementArticleViews id db)).
Proof.
  intros Hinv. unfold DatabaseStorage.incrementArticleViews, await.
  destruct (update_articles_cases DatabaseStorage.incrementArticleViews_set id db)
    as [[e ->] | ->]; [exact Hinv|].
  cbn [fst resolve]. apply refs_inv_rewrite_rows; [|exact Hinv].
  intros a Hin. destruct Hinv as [H1 _]. specialize (H1 a Hin).
  unfold rewrite_row. now destruct (Article.id a =? id).
Qed.

Lemma refs_inv_createArticle clk v tagIds db :
  refs_inv db -> refs_inv (fst (DatabaseStorage.createArticle clk v tagIds db)).
Proof.
  intros Hinv.
  destruct (createArticle_shape clk v tagIds db) as (Hu & Hc & Ht & Hcases).
  destruct Hcases as [(_ & Ha & Hl) | (Hok & Ha & Hl)].
  - revert Hinv. apply refs_inv_mono; auto; unfold has_user, has_category, has_tag;
      rewrite ?Hu, ?Hc, ?Ht; auto.
  - destruct Hinv as [H1 H2].
    apply andb_prop in Hok as [Hok1 Hok2].
    assert (Harts : forall x, has_article db x = true ->
              has_article (fst (DatabaseStorage.createArticle clk v tagIds db)) x = true).
    { intros x Hx. unfold has_article in *. rewrite Ha. now apply existsb_app_l. }
    split.
    + rewrite Ha. intros a Hin. unfold has_user, category_ref_ok, has_category.
      rewrite Hu, Hc. apply in_app_iff in Hin as [Hin | [<- | []]].
      * exact (H1 a Hin).
      * split; [exact Hok1 | exact Hok2].
    + intros l Hin. unfold has_tag. rewrite Ht.
      assert (Hold : In l (articleTags db) ->
                has_article (fst (DatabaseStorage.createArticle clk v tagIds db))
                  (ArticleTag.articleId l) = true
                /\ existsb (fun t => Tag.id t =? ArticleTag.tagId l) (tags db) = true).
      { intros Hl0. destruct (H2 l Hl0). split; auto. }
      destruct Hl as [Hl | (n & tl & Hl & Htags)]; rewrite Hl in Hin; [auto|].
      apply in_app_iff in Hin as [Hin | Hin]; [auto|].
      apply link_rows_In, in_map_iff in Hin as (t & E & Hint).
      injection E as Ea Et. split.
      * rewrite <- Ea. unfold has_article. rewrite Ha, existsb_app. simpl.
        now rewrite String.eqb_refl, orb_true_r.
      * rewrite <- Et. rewrite forallb_forall in Htags. now apply Htags.
Qed.

Lemma refs_inv_updateArticle clk id upd tagIds db :
  refs_inv db -> refs_inv (fst (DatabaseStorage.updateArticle clk id upd tagIds db)).
Proof.
  intros [H1 H2].
  destruct (updateArticle_shape clk id upd tagIds db) as (Hu & Hc & Ht & Ha & Hl).
  assert (Harts : forall x,
            has_article (fst (DatabaseStorage.updateArticle clk id upd tagIds db)) x
            = has_article db x).
  { intros x. unfold has_article. destruct Ha as [-> | [_ ->]]; [reflexivity|].
    apply existsb_rewrite_row. }
  split.
  - intros a' Hin. unfold has_user, category_ref_ok, has_category. rewrite Hu, Hc.
    destruct Ha as [Ha | [Hok Ha]]; rewrite Ha in Hin; [exact (H1 a' Hin)|].
    apply in_map_iff in Hin as (a & <- & Hin). destruct (H1 a Hin) as [Hau Hac].
    unfold rewrite_row. destruct (Article.id a =? id); [|split; assumption].
    apply andb_prop in Hok as [Hok1 Hok2]. simpl. split.
    + destruct (PartialArticle.authorId upd); [exact Hok1 | exact Hau].
    + destruct (PartialArticle.categoryId upd) as [c|]; [exact Hok2 | exact Hac].
  - intros l Hin. rewrite Harts. unfold has_tag. rewrite Ht.
    destruct Hl as [Hl | [Hl | (n & tl & Hl & Hart & Htags)]]; rewrite Hl in Hin.
    + exact (H2 l Hin).
    + apply filter_In in Hin as [Hin _]. exact (H2 l Hin).
    + apply in_app_iff in Hin as [Hin | Hin].
      * apply filter_In in Hin as [Hin _]. exact (H2 l Hin).
      * apply link_rows_In, in_map_iff in Hin as (t & E & Hint).
        injection E as Ea Et. rewrite <- Ea, <- Et. split; [exact Hart|].
        rewrite forallb_forall in Htags. now apply Htags.
Qed.

Lemma refs_inv_step c db : refs_inv db -> refs_inv (run_call c db).
Proof.
  destruct c; simpl.
  - apply refs_inv_createUser.
  - apply refs_inv_deleteUser.
  - apply refs_inv_createCategory.
  - apply refs_inv_deleteCategory.
  - apply refs_inv_createTag.
  - apply refs_inv_deleteTag.
  - apply refs_inv_createArticle.
  - apply refs_inv_updateArticle.
  - apply refs_inv_deleteArticle.
  - apply refs_inv_incrementArticleViews.
Qed.

Lemma refs_inv_run cs : forall db, refs_inv db -> refs_inv (run cs db).
Proof.
  induction cs as [|c cs IH]; intros db H; simpl; [exact H|].
  apply IH. now apply refs_inv_step.
Qed.

Lemma refs_inv_emptyDb : refs_inv emptyDb.
Proof. split; intros x []. Qed.

(** ** Ordered listings *)

Lemma insert_by_perm {A} (before : A -> A -> bool) x l :
  Permutation (x :: l) (insert_by before x l).
Proof.
  induction l as [|y l IH]; simpl; [reflexivity|].
  destruct (before x y); [reflexivity|].
  rewrite perm_swap. now constructor.
Qed.

Lemma orderBy_perm {A} (before : A -> A -> bool) l :
  Permutation l (orderBy before l).
Proof.
  induction l as [|x l IH]; simpl; [constructor|].
  rewrite <- insert_by_perm. now constructor.
Qed.

Lemma orderBy_In {A} (before : A -> A -> bool) l x :
  In x (orderBy before l) <-> In x l.
Proof.
  split; apply Permutation_in; [symmetry|]; apply orderBy_perm.
Qed.

(** What a resolved view holds when the references of the tables are
    sound. *)
Lemma with_relations_complete db a :
  refs_inv db -> In a (articles db) ->
  ArticleWithRelations.author (with_relations db a) <> None
  /\ (Article.categoryId a <> None ->
      ArticleWithRelations.category (with_relations db a) <> None)
  /\ Forall (fun t => t <> None) (ArticleWithRelations.tags (with_relations db a)).
Proof.
  intros [H1 H2] Hin. destruct (H1 a Hin) as [Hu Hc]. split; [|split].
  - simpl. apply existsb_find in Hu as [u ->]. discriminate.
  - simpl. destruct (Article.categoryId a) as [c|]; [|congruence]. intros _.
    apply existsb_find in Hc as [x ->]. discriminate.
  - simpl. rewrite map_map. apply Forall_forall. intros t Ht.
    apply in_map_iff in Ht as (l & <- & Hl). apply filter_In in Hl as [Hl _].
    destruct (H2 l Hl) as [_ Htag]. simpl.
    apply existsb_find in Htag as [x ->]. discriminate.
Qed.

(** X4. After any history of storage calls on an empty store every
    stored reference points at a stored row, so the views
    [getAllArticles] and [getArticleById] resolve are complete: the
    author is never null, the category is there whenever the article has
    a [categoryId], and no resolved tag is null. *)
Theorem resolved_views_complete cs id :
  let db := run cs emptyDb in
  let complete v :=
    ArticleWithRelations.author v <> None
    /\ (Article.categoryId (ArticleWithRelations.article v) <> None ->
        ArticleWithRelations.category v <> None)
    /\ Forall (fun t => t <> None) (ArticleWithRelations.tags v) in
  refs_inv db
  /\ (exists views,
        DatabaseStorage.getAllArticles db = (db, Fulfilled views)
        /\ Forall complete views)
  /\ (exists found,
        DatabaseStorage.getArticleById id db = (db, Fulfilled found)
        /\ forall v, found = Some v -> complete v).
Proof.
  intros db complete.
  assert (Hinv : refs_inv db) by (apply refs_inv_run, refs_inv_emptyDb).
  split; [exact Hinv|]. split.
  - eexists. split; [reflexivity|]. apply Forall_forall. intros v Hv.
    apply in_map_iff in Hv as (a & <- & Ha). apply orderBy_In in Ha.
    now apply with_relations_complete.
  - eexists. split; [reflexivity|]. intros v Hv.
    destruct (find _ (articles db)) as [a|] eqn:Hf; [|discriminate].
    injection Hv as <-. apply find_some in Hf as [Ha _].
    now apply with_relations_complete.
Qed.

Lemma resolved_views_complete_witness :
  exists views,
    DatabaseStorage.getAllArticles (run Sample.walkthrough emptyDb)
      = (run Sample.walkthrough emptyDb, Fulfilled views)
    /\ Forall (fun v => ArticleWithRelations.author v <> None) views.
Proof.
  destruct (resolved_views_complete Sample.walkthrough (uuid 3))
    as (_ & (views & Hrun & Hall) & _).
  exists views. split; [exact Hrun|].
  eapply Forall_impl; [|exact Hall]. intros v Hv. exact (proj1 Hv).
Defined.

(** ** Unique columns along a history *)

Lemma NoDup_map_filter {A B} (f : A -> B) (p : A -> bool) l :
  NoDup (map f l) -> NoDup (map f (filter p l)).
Proof.
  induction l as [|x l IH]; simpl; intros H; [constructor|].
  inversion H as [|? ? Hnin Hnd]; subst.
  destruct (p x); simpl; [|auto]. constructor; [|auto].
  intros Hin. apply Hnin. apply in_map_iff in Hin as (y & E & Hy).
  apply filter_In in Hy as [Hy _]. apply in_map_iff. eauto.
Qed.

Lemma NoDup_map_snoc {A} (f : A -> string) l row :
  NoDup (map f l) -> existsb (fun u => f u =? f row) l = false ->
  NoDup (map f (l ++ [row])).
Proof.
  intros Hnd Hfresh. rewrite map_app. simpl.
  apply NoDup_app; [exact Hnd | repeat constructor; intros [] |].
  intros x Hx [<- | []]. apply in_map_iff in Hx as (u & E & Hu).
  assert (existsb (fun u => f u =? f row) l = true).
  { apply existsb_exists. exists u. split; [exact Hu|]. now apply String.eqb_eq. }
  congruence.
Qed.

Lemma unique_inv_tables db db' :
  users db' = users db -> categories db' = categories db -> tags db' = tags db ->
  unique_inv db -> unique_inv db'.
Proof. unfold unique_inv. now intros -> -> ->. Qed.

Lemma unique_inv_step c db : unique_inv db -> unique_inv (run_call c db).
Proof.
  intros Hinv. pose proof Hinv as (Hun & Hem & Hcn & Htn).
  destruct c as [clk v | id | clk v | id | clk v | id
                | clk v tagIds | clk id v tagIds | id | id]; simpl.
  - unfold DatabaseStorage.createUser.
    destruct (insert_users_shape clk v db) as (Hc & Ht & _ & _ & Hu).
    unfold unique_inv. rewrite Hc, Ht.
    destruct Hu as [-> | (row & -> & En & Ee & Fn & Fe)]; [exact Hinv|].
    repeat split; auto; apply NoDup_map_snoc; auto; rewrite ?En, ?Ee; assumption.
  - unfold DatabaseStorage.deleteUser.
    destruct (delete_users_shape id db) as (Hc & Ht & _ & _ & Hu).
    unfold unique_inv. rewrite Hc, Ht.
    destruct Hu as [-> | [-> _]]; [exact Hinv|].
    repeat split; auto; now apply NoDup_map_filter.
  - unfold DatabaseStorage.createCategory.
    destruct (insert_categories_shape clk v db) as (Hu & Ht & _ & _ & Hc).
    unfold unique_inv. rewrite Hu, Ht.
    destruct Hc as [-> | (row & -> & En & Fn)]; [exact Hinv|].
    repeat split; auto; apply NoDup_map_snoc; auto; rewrite En; assumption.
  - unfold DatabaseStorage.deleteCategory.
    destruct (delete_categories_shape id db) as (Hu & Ht & _ & _ & Hc).
    unfold unique_inv. rewrite Hu, Ht.
    destruct Hc as [-> | [-> _]]; [exact Hinv|].
    repeat split; auto; now apply NoDup_map_filter.
  - unfold DatabaseStorage.createTag.
    destruct (insert_tags_shape clk v db) as (Hu & Hc & _ & _ & Ht).
    unfold unique_inv. rewrite Hu, Hc.
    destruct Ht as [-> | (row & -> & En & Fn)]; [exact Hinv|].
    repeat split; auto; apply NoDup_map_snoc; auto; rewrite En; assumption.
  - unfold unique_inv. cbn [fst DatabaseStorage.deleteTag delete_tags users categories
      tags set_tags set_articleTags].
    repeat split; auto; now apply NoDup_map_filter.
  - destruct (createArticle_shape clk v tagIds db) as (Hu & Hc & Ht & _).
    now apply (unique_inv_tables db).
  - destruct (updateArticle_shape clk id v tagIds db) as (Hu & Hc & Ht & _).
    now apply (unique_inv_tables db).
  - now apply (unique_inv_tables db).
  - unfold DatabaseStorage.incrementArticleViews, await.
    destruct (update_articles_cases DatabaseStorage.incrementArticleViews_set id db)
      as [[e ->] | ->]; [exact Hinv|].
    now apply (unique_inv_tables db).
Qed.

(** X5. After any history of storage calls on an empty store no two
    users share a username or an email, no two categories a name and no
    two tags a name: the store refuses the insert that would repeat
    one. *)
Theorem unique_columns_along_history cs :
  unique_inv (run cs emptyDb).
Proof.
  assert (H : forall db, unique_inv db -> unique_inv (run cs db)).
  { induction cs as [|c cs IH]; intros db Hdb; simpl; [exact Hdb|].
    apply IH. now apply unique_inv_step. }
  apply H. repeat split; constructor.
Qed.

(** ** Article keys along a history *)

Lemma uuids_mono c db : uuids db <= uuids (run_call c db).
Proof.
  destruct c as [clk v | id | clk v | id | clk v | id
                | clk v tagIds | clk id v tagIds | id | id]; cbn [run_call].
  - exact (proj1 (inert_createUser clk v db)).
  - exact (proj1 (inert_deleteUser id db)).
  - exact (proj1 (inert_createCategory clk v db)).
  - exact (proj1 (inert_deleteCategory id db)).
  - exact (proj1 (inert_createTag clk v db)).
  - exact (proj1 (inert_deleteTag id db)).
  - destruct (insert_refs_ok db v) eqn:Hok.
    + destruct (createArticle_rows clk v tagIds db Hok). lia.
    + rewrite (createArticle_refused clk v tagIds db Hok). simpl. lia.
  - apply updateArticle_uuids.
  - exact (proj1 (inert_deleteArticle id db)).
  - exact (proj1 (inert_incrementArticleViews id db)).
Qed.

Lemma map_id_rewrite_row s id l :
  map Article.id (map (rewrite_row s id) l) = map Article.id l.
Proof.
  rewrite map_map. apply map_ext. intros a. apply rewrite_row_id.
Qed.

Lemma article_keys_inv_same db db' :
  uuids db <= uuids db' -> map Article.id (articles db') = map Article.id (articles db) ->
  article_keys_inv db -> article_keys_inv db'.
Proof.
  intros Hu Hids [Hnd Hk]. split; [now rewrite Hids|].
  intros a Ha. apply (in_map Article.id) in Ha. rewrite Hids in Ha.
  apply in_map_iff in Ha as (a0 & E & Ha0). rewrite <- E.
  eapply keyed_mono; eauto.
Qed.

Lemma article_keys_inv_step c db :
  article_keys_inv db -> article_keys_inv (run_call c db).
Proof.
  intros Hinv. pose proof (uuids_mono c db) as Hu.
  destruct c as [clk v | id | clk v | id | clk v | id
                | clk v tagIds | clk id v tagIds | id | id]; cbn [run_call] in *.
  - apply (article_keys_inv_same db); auto.
    unfold DatabaseStorage.createUser.
    now destruct (insert_users_shape clk v db) as (_ & _ & -> & _).
  - apply (article_keys_inv_same db); auto.
    unfold DatabaseStorage.deleteUser.
    now destruct (delete_users_shape id db) as (_ & _ & -> & _).
  - apply (article_keys_inv_same db); auto.
    unfold DatabaseStorage.createCategory.
    now destruct (insert_categories_shape clk v db) as (_ & _ & -> & _).
  - apply (article_keys_inv_same db); auto.
    unfold DatabaseStorage.deleteCategory.
    now destruct (delete_categories_shape id db) as (_ & _ & -> & _).
  - apply (article_keys_inv_same db); auto.
    unfold DatabaseStorage.createTag.
    now destruct (insert_tags_shape clk v db) as (_ & _ & -> & _).
  - apply (article_keys_inv_same db); auto.
  - destruct (createArticle_shape clk v tagIds db) as (_ & _ & _ & Hcases).
    destruct Hcases as [(_ & Ha & _) | (Hok & Ha & _)].
    + apply (article_keys_inv_same db); auto. now rewrite Ha.
    + destruct Hinv as [Hnd Hk].
      destruct (createArticle_rows clk v tagIds db Hok) as [_ Hlt].
      split.
      * rewrite Ha, map_app. simpl.
        apply NoDup_app; [exact Hnd | repeat constructor; intros [] |].
        intros x Hx [<- | []]. apply in_map_iff in Hx as (a & E & Hin).
        apply (keyed_fresh db). rewrite <- E. now apply Hk.
      * rewrite Ha. intros a Hin. apply in_app_iff in Hin as [Hin | [<- | []]].
        -- eapply keyed_mono; eauto.
        -- exists (uuids db). split; [lia | reflexivity].
  - apply (article_keys_inv_same db); auto.
    destruct (updateArticle_shape clk id v tagIds db) as (_ & _ & _ & Ha & _).
    destruct Ha as [-> | [_ ->]]; [reflexivity | apply map_id_rewrite_row].
  - destruct Hinv as [Hnd Hk]. split.
    + now apply NoDup_map_filter.
    + intros a Hin. apply filter_In in Hin as [Hin _]. now apply Hk.
  - apply (article_keys_inv_same db); auto.
    unfold DatabaseStorage.incrementArticleViews, await.
    destruct (update_articles_cases DatabaseStorage.incrementArticleViews_set id db)
      as [[e ->] | ->]; [reflexivity | apply map_id_rewrite_row].
Qed.

Lemma article_keys_inv_run cs : forall db,
  article_keys_inv db -> article_keys_inv (run cs db).
Proof.
  induction cs as [|c cs IH]; intros db H; simpl; [exact H|].
  apply IH. now apply article_keys_inv_step.
Qed.

Lemma article_keys_inv_emptyDb : article_keys_inv emptyDb.
Proof. split; [constructor | intros a []]. Qed.

Lemma NoDup_filter_key_le_1 l id :
  NoDup (map Article.id l) ->
  length (filter (fun a => Article.id a =? id) l) <= 1.
Proof.
  induction l as [|a l IH]; simpl; intros H; [lia|].
  inversion H as [|? ? Hnin Hnd]; subst.
  destruct (Article.id a =? id) eqn:E; [|auto].
  apply String.eqb_eq in E. simpl.
  replace (filter (fun a0 => Article.id a0 =? id) l) with (@nil Article.t);
    [simpl; lia|].
  symmetry. apply filter_none, Forall_forall. intros b Hb.
  apply String.eqb_neq. intros Eb. apply Hnin. apply in_map_iff.
  exists b. split; [congruence | exact Hb].
Qed.

(** X6. After any history of storage calls on an empty store the
    articles have pairwise distinct ids, so for any id the
    [WHERE id = ...] of [getArticleById], [updateArticle],
    [incrementArticleViews] and [deleteArticle] selects at most one
    row. *)
Theorem article_ids_distinct cs id :
  let db := run cs emptyDb in
  NoDup (map Article.id (articles db))
  /\ length (filter (fun a => Article.id a =? id) (articles db)) <= 1.
Proof.
  intros db.
  destruct (article_keys_inv_run cs _ article_keys_inv_emptyDb) as [Hnd _].
  split; [exact Hnd | now apply NoDup_filter_key_le_1].
Qed.

(** ** The views counter along a history *)





(** ** Listings *)




(** ** Insert, then look up *)


Lemma find_app_fresh {A} (f : A -> bool) l x :
  existsb f l = false -> f x = true -> find f (l ++ [x]) = Some x.
Proof.
  induction l as [|y l IH]; simpl; intros Hl Hx; [now rewrite Hx|].
  destruct (f y); [discriminate | auto].
Qed.




(** ** updateArticle: what is merged and what is returned *)





(** ** Creating users through the routes *)

Section UserRoutes.

Variable is_email : string -> bool.
Variable bcrypt_hash : string -> string.

Lemma check_and_createUser_fresh clk name pw e fn role db :
  3 <= String.length name -> 6 <= String.length pw ->
  is_email e = true -> 2 <= String.length fn ->
  existsb (fun u => User.username u =? name) (users db) = false ->
  existsb (fun u => User.email u =? e) (users db) = false ->
  let user := User.mk (uuid (uuids db)) name (bcrypt_hash pw) e fn
                (orElse role "employee") (sql_now clk) in
  check_and_createUser is_email bcrypt_hash clk
    (UserBody.mk (Some name) (Some pw) (Some e) (Some fn) role) db
  = (set_users (set_uuids db (S (uuids db))) (users db ++ [user]), Fulfilled (inr user)).
Proof.
  intros L1 L2 L3 L4 Hn He user.
  unfold check_and_createUser, await.
  rewrite insertUserSchema_parse_valid by assumption.
  unfold DatabaseStorage.getUserByUsername, DatabaseStorage.getUserByEmail.
  cbn [InsertUser.username InsertUser.email InsertUser.password InsertUser.fullName
       InsertUser.role].
  replace (find (fun u => User.username u =? name) (users db)) with (@None User.t).
  2:{ symmetry. destruct (find _ (users db)) eqn:F; [|reflexivity].
      apply find_some in F as [Hin Hf].
      assert (existsb (fun u => User.username u =? name) (users db) = true)
        by (apply existsb_exists; eauto).
      congruence. }
  replace (find (fun u => User.email u =? e) (users db)) with (@None User.t).
  2:{ symmetry. destruct (find _ (users db)) eqn:F; [|reflexivity].
      apply find_some in F as [Hin Hf].
      assert (existsb (fun u => User.email u =? e) (users db) = true)
        by (apply existsb_exists; eauto).
      congruence. }
  unfold DatabaseStorage.createUser, insert_users, await, gen_random_uuid.
  cbn [users set_uuids InsertUser.username InsertUser.email InsertUser.password
       InsertUser.fullName InsertUser.role].
  rewrite Hn, He. reflexivity.
Qed.

(** X12. Registration with a body that passes the schema and a username
    and email no stored user has appends one user, whose password column
    holds the bcrypt hash (not the submitted password) and whose role
    defaults to "employee", and answers 200 with only [id], [username]
    and [email].  A lookup by that username then finds this user, and
    registering the same body again is answered 400 "Username already
    exists" with nothing written. *)
Theorem register_creates_user clk (req : Request UserBody.t) db name pw e fn role :
  req_body req = UserBody.mk (Some name) (Some pw) (Some e) (Some fn) role ->
  3 <= String.length name -> 6 <= String.length pw ->
  is_email e = true -> 2 <= String.length fn ->
  existsb (fun u => User.username u =? name) (users db) = false ->
  existsb (fun u => User.email u =? e) (users db) = false ->
  let user := User.mk (uuid (uuids db)) name (bcrypt_hash pw) e fn
                (orElse role "employee") (sql_now clk) in
  let db' := set_users (set_uuids db (S (uuids db))) (users db ++ [user]) in
  post_auth_register is_email bcrypt_hash clk req db
    = (db', res_json (JObj [("id", JStr (uuid (uuids db)));
                            ("username", JStr name); ("email", JStr e)]))
  /\ DatabaseStorage.getUserByUsername name db' = (db', Fulfilled (Some user))
  /\ post_auth_register is_email bcrypt_hash clk req db'
     = (db', res_error 400 "Username already exists").
Proof.
  intros Hb L1 L2 L3 L4 Hn He user db'.
  assert (Hfind : find (fun u => User.username u =? name) (users db') = Some user).
  { subst db'. cbn [users set_users]. apply find_app_fresh; [exact Hn|].
    apply String.eqb_refl. }
  split; [|split].
  - unfold post_auth_register, try_catch, await. rewrite Hb.
    rewrite check_and_createUser_fresh by assumption. reflexivity.
  - unfold DatabaseStorage.getUserByUsername. now rewrite Hfind.
  - unfold post_auth_register, try_catch, check_and_createUser, await. rewrite Hb.
    rewrite insertUserSchema_parse_valid by assumption.
    unfold DatabaseStorage.getUserByUsername.
    cbn [InsertUser.username]. rewrite Hfind. reflexivity.
Qed.

(** X13. A body that passes the schema, with a new username but an
    email some stored user already has, is answered 400 "Email already
    exists" by both user-creating routes, and nothing is written. *)
Theorem duplicate_email_rejected clk (req : Request UserBody.t) db name pw e fn role :
  req_body req = UserBody.mk (Some name) (Some pw) (Some e) (Some fn) role ->
  3 <= String.length name -> 6 <= String.length pw ->
  is_email e = true -> 2 <= String.length fn ->
  existsb (fun u => User.username u =? name) (users db) = false ->
  existsb (fun u => User.email u =? e) (users db) = true ->
  post_auth_register is_email bcrypt_hash clk req db
    = (db, res_error 400 "Email already exists")
  /\ (truthy (session_userId req) = true ->
      post_employees is_email bcrypt_hash clk req db
        = (db, res_error 400 "Email already exists")).
Proof.
  intros Hb L1 L2 L3 L4 Hn He.
  assert (Hc : check_and_createUser is_email bcrypt_hash clk (req_body req) db
               = (db, Fulfilled (inl (res_error 400 "Email already exists")))).
  { unfold check_and_createUser, await. rewrite Hb.
    rewrite insertUserSchema_parse_valid by assumption.
    unfold DatabaseStorage.getUserByUsername, DatabaseStorage.getUserByEmail.
    cbn [InsertUser.username InsertUser.email].
    replace (find (fun u => User.username u =? name) (users db)) with (@None User.t).
    2:{ symmetry. destruct (find _ (users db)) eqn:F; [|reflexivity].
        apply find_some in F as [Hin Hf].
        assert (existsb (fun u => User.username u =? name) (users db) = true)
          by (apply existsb_exists; eauto).
        congruence. }
    apply existsb_find in He as [u ->]. reflexivity. }
  split.
  - unfold post_auth_register, try_catch, await. now rewrite Hc.
  - intros Hs. unfold post_employees, requireAuth. rewrite Hs.
    unfold try_catch, await. now rewrite Hc.
Qed.

Lemma zod_result_issue {A} (issues : list string) (a : A) db :
  issues <> [] -> exists e, zod_result issues a db = (db, Rejected e).
Proof.
  destruct issues; [contradiction|]. intros _. eexists. reflexivity.
Qed.

Lemma insertUserSchema_parse_invalid b db :
  (forall u, UserBody.username b = Some u -> String.length u < 3)
  \/ (forall p, UserBody.password b = Some p -> String.length p < 6)
  \/ (forall e, UserBody.email b = Some e -> is_email e = false)
  \/ (forall f, UserBody.fullName b = Some f -> String.length f < 2) ->
  exists err, insertUserSchema_parse is_email b db = (db, Rejected err).
Proof.
  intros H. unfold insertUserSchema_parse.
  destruct (UserBody.username b) as [u|]; [|eexists; reflexivity].
  destruct (UserBody.password b) as [p|]; [|eexists; reflexivity].
  destruct (UserBody.email b) as [e|]; [|eexists; reflexivity].
  destruct (UserBody.fullName b) as [f|]; [|eexists; reflexivity].
  apply zod_result_issue. unfold z_string_min.
  destruct H as [H | [H | [H | H]]].
  - specialize (H u eq_refl). apply Nat.ltb_lt in H. rewrite H. discriminate.
  - specialize (H p eq_refl). apply Nat.ltb_lt in H. rewrite H.
    destruct (String.length u <? 3)%nat; discriminate.
  - specialize (H e eq_refl). rewrite H.
    destruct (String.length u <? 3)%nat, (String.length p <? 6)%nat; discriminate.
  - specialize (H f eq_refl). apply Nat.ltb_lt in H. rewrite H.
    destruct (String.length u <? 3)%nat, (String.length p <? 6)%nat, (is_email e);
      discriminate.
Qed.

(** X14. A user form whose username is missing or shorter than 3
    characters, or whose password is missing or shorter than 6, or whose
    email is missing or fails the email test, or whose full name is
    missing or shorter than 2, is answered 400 by both user-creating
    routes before any storage call: the tables and the uuid counter are
    as they were. *)
Theorem invalid_user_form_rejected clk (req : Request UserBody.t) db :
  (forall u, UserBody.username (req_body req) = Some u -> String.length u < 3)
  \/ (forall p, UserBody.password (req_body req) = Some p -> String.length p < 6)
  \/ (forall e, UserBody.email (req_body req) = Some e -> is_email e = false)
  \/ (forall f, UserBody.fullName (req_body req) = Some f -> String.length f < 2) ->
  fst (post_auth_register is_email bcrypt_hash clk req db) = db
  /\ status (snd (post_auth_register is_email bcrypt_hash clk req db)) = 400
  /\ (truthy (session_userId req) = true ->
      fst (post_employees is_email bcrypt_hash clk req db) = db
      /\ status (snd (post_employees is_email bcrypt_hash clk req db)) = 400).
Proof.
  intros H. destruct (insertUserSchema_parse_invalid _ db H) as [err Herr].
  assert (Hc : check_and_createUser is_email bcrypt_hash clk (req_body req) db
               = (db, Rejected err)).
  { unfold check_and_createUser, await. now rewrite Herr. }
  split; [|split].
  - unfold post_auth_register, try_catch, await. now rewrite Hc.
  - unfold post_auth_register, try_catch, await. now rewrite Hc.
  - intros Hs. unfold post_employees, requireAuth. rewrite Hs.
    unfold try_catch, await. now rewrite Hc.
Qed.

End UserRoutes.

Lemma register_creates_user_witness :
  DatabaseStorage.getUserByUsername "bobby"
    (fst (post_auth_register Sample.is_email Sample.bcrypt_hash Sample.clk1
            (mkRequest None "" None
               (UserBody.mk (Some "bobby") (Some "secret1") (Some "bob@x.com")
                  (Some "Bob B") None))
            Sample.db))
  = (set_users (set_uuids Sample.db 1)
       [Sample.alice;
        User.mk (uuid 0) "bobby" "$2a$10$secret1" "bob@x.com" "Bob B" "employee" 1999],
     Fulfilled (Some (User.mk (uuid 0) "bobby" "$2a$10$secret1" "bob@x.com" "Bob B"
                        "employee" 1999))).
Proof.
  destruct (register_creates_user Sample.is_email Sample.bcrypt_hash Sample.clk1
              (mkRequest None "" None
                 (UserBody.mk (Some "bobby") (Some "secret1") (Some "bob@x.com")
                    (Some "Bob B") None))
              Sample.db "bobby" "secret1" "bob@x.com" "Bob B" None eq_refl)
    as (Hrun & Hfind & _);
    [simpl; lia | simpl; lia | reflexivity | simpl; lia | reflexivity | reflexivity |].
  rewrite Hrun. exact Hfind.
Defined.

Lemma duplicate_email_rejected_witness :
  post_auth_register Sample.is_email Sample.bcrypt_hash Sample.clk1
    (mkRequest None "" None
       (UserBody.mk (Some "alice2") (Some "secret1") (Some "alice@x.com")
          (Some "Alice B") None))
    Sample.db
  = (Sample.db, res_error 400 "Email already exists").
Proof.
  apply (duplicate_email_rejected Sample.is_email Sample.bcrypt_hash Sample.clk1
           (mkRequest None "" None
              (UserBody.mk (Some "alice2") (Some "secret1") (Some "alice@x.com")
                 (Some "Alice B") None))
           Sample.db "alice2" "secret1" "alice@x.com" "Alice B" None eq_refl);
    [simpl; lia | simpl; lia | reflexivity | simpl; lia | reflexivity | reflexivity].
Defined.

Lemma invalid_user_form_rejected_witness :
  fst (post_auth_register Sample.is_email Sample.bcrypt_hash Sample.clk1
         (mkRequest None "" None
            (UserBody.mk (Some "al") (Some "secret1") (Some "al@x.com")
               (Some "Al") None))
         Sample.db) = Sample.db.
Proof.
  destruct (invalid_user_form_rejected Sample.is_email Sample.bcrypt_hash Sample.clk1
              (mkRequest None "" None
                 (UserBody.mk (Some "al") (Some "secret1") (Some "al@x.com")
                    (Some "Al") None))
              Sample.db) as [H _]; [|exact H].
  left. intros u E. injection E as <-. simpl. lia.
Defined.

(** ** Creating articles through the route *)

Lemma z_string_min_1 msg s : s <> "" -> z_string_min 1 msg (Some s) = [].
Proof.
  intros H. apply z_string_min_ok. destruct s; [contradiction | simpl; lia].
Qed.

Lemma insertArticleSchema_parse_valid d t c a db :
  PartialArticle.title d = Some t -> t <> "" ->
  PartialArticle.content d = Some c -> c <> "" ->
  PartialArticle.authorId d = Some a ->
  insertArticleSchema_parse d db =
    (db, Fulfilled (InsertArticle.mk t c (PartialArticle.excerpt d)
                      (PartialArticle.coverImage d) (PartialArticle.status d)
                      (PartialArticle.categoryId d) a)).
Proof.
  intros Ht Hnt Hc Hnc Ha. unfold insertArticleSchema_parse.
  rewrite Ht, Hc, Ha, !z_string_min_1 by assumption. reflexivity.
Qed.




(** X16. The author of an article created through [POST /api/articles]
    is the user of the session, whatever [authorId] the body carries: with
    a stored session user, a non-empty title and content and a category
    that is stored (or none), exactly one article row is appended and its
    [authorId] is the session user's id. *)
Theorem post_articles_author_is_session_user clk (req : Request ArticleBody.t) db
    user t c :
  truthy (session_userId req) = true ->
  find (fun u => User.id u =? orElse (session_userId req) "") (users db) = Some user ->
  PartialArticle.title (ArticleBody.articleData (req_body req)) = Some t -> t <> "" ->
  PartialArticle.content (ArticleBody.articleData (req_body req)) = Some c -> c <> "" ->
  category_ref_ok db
    (orNull (PartialArticle.categoryId (ArticleBody.articleData (req_body req)))) = true ->
  exists article,
    articles (fst (post_articles clk req db)) = (articles db ++ [article])%list
    /\ Article.authorId article = User.id user
    /\ Some (Article.authorId article) = session_userId req
    /\ Article.title article = t /\ Article.content article = c
    /\ Article.views article = 0%Z.
Proof.
  intros Hs Hu Ht Hnt Hc Hnc Hcat.
  pose proof (find_some _ _ Hu) as [Hin Hid]. apply String.eqb_eq in Hid.
  set (d := ArticleBody.articleData (req_body req)) in *.
  set (data := InsertArticle.mk t c (PartialArticle.excerpt d)
                 (PartialArticle.coverImage d) (PartialArticle.status d)
                 (PartialArticle.categoryId d) (User.id user)).
  assert (Hok : insert_refs_ok db data = true).
  { unfold insert_refs_ok. cbn [data InsertArticle.authorId InsertArticle.categoryId].
    rewrite Hcat, andb_true_r. unfold has_user. apply existsb_exists.
    exists user. split; [exact Hin | apply String.eqb_refl]. }
  destruct (createArticle_rows clk data (ArticleBody.tagIds (req_body req)) db Hok)
    as [Hrows _].
  eexists. split; [|split; [|split; [|split; [|split]]]].
  - unfold post_articles, requireAuth. rewrite Hs.
    unfold try_catch, await, DatabaseStorage.getUser. cbn [negb]. rewrite Hu.
    rewrite (insertArticleSchema_parse_valid _ t c (User.id user))
      by first [assumption | reflexivity].
    cbn [PartialArticle.excerpt PartialArticle.coverImage PartialArticle.status
         PartialArticle.categoryId]. fold d. fold data.
    destruct (DatabaseStorage.createArticle clk data _ db) as [db' [a|e]];
      exact Hrows.
  - reflexivity.
  - cbn. rewrite Hid. destruct (session_userId req); [reflexivity | discriminate].
  - reflexivity.
  - reflexivity.
  - reflexivity.
Qed.

Lemma post_articles_author_is_session_user_witness :
  map Article.authorId
    (articles (fst (post_articles Sample.clk1
                      (Sample.session ""
                         (ArticleBody.mk
                            (PartialArticle.mk (Some "T") (Some "C") None None None None
                               (Some "someone-else"))
                            None))
                      Sample.db)))
  = ["u1"; "u1"; "u1"].
Proof.
  destruct (post_articles_author_is_session_user Sample.clk1
              (Sample.session ""
                 (ArticleBody.mk
                    (PartialArticle.mk (Some "T") (Some "C") None None None None
                       (Some "someone-else"))
                    None))
              Sample.db Sample.alice "T" "C" eq_refl eq_refl eq_refl)
    as (a & Hrows & Hauthor & _);
    [discriminate | reflexivity | discriminate | reflexivity |].
  rewrite Hrows, map_app. simpl. now rewrite Hauthor.
Defined.

(** ** What the user routes send *)

Lemma check_and_createUser_early is_email bcrypt_hash clk b db db' r :
  check_and_createUser is_email bcrypt_hash clk b db = (db', Fulfilled (inl r)) ->
  exists m, r = res_error 400 m.
Proof.
  unfold check_and_createUser, await.
  destruct (insertUserSchema_parse is_email b db) as [db1 [data|e]]; [|discriminate].
  unfold DatabaseStorage.getUserByUsername, DatabaseStorage.getUserByEmail.
  destruct (find _ (users db1)); [intros H; injection H as _ <-; eauto|].
  destruct (find _ (users db1)); [intros H; injection H as _ <-; eauto|].
  destruct (DatabaseStorage.createUser _ _ _) as [db2 [u|e]]; discriminate.
Qed.

(** X17. No response of the user routes carries a [password] key, at
    any depth: not the registration answer, not the employee list, not
    the created employee, not the login answer and not the "me"
    answer. *)
Theorem user_routes_send_no_password is_email bcrypt_hash bcrypt_compare clk
    (form : Request UserBody.t) (login : Request LoginBody.t) (req : Request unit)
    db j :
  (body (snd (post_auth_register is_email bcrypt_hash clk form db)) = Some j ->
   mentions "password" j = false)
  /\ (body (snd (post_employees is_email bcrypt_hash clk form db)) = Some j ->
      mentions "password" j = false)
  /\ (body (snd (get_employees req db)) = Some j -> mentions "password" j = false)
  /\ (body (fst (snd (post_auth_login bcrypt_compare login db))) = Some j ->
      mentions "password" j = false)
  /\ (forall resp, snd (get_auth_me req db) = Some resp -> body resp = Some j ->
                   mentions "password" j = false).
Proof.
  split; [|split; [|split; [|split]]].
  - unfold post_auth_register, try_catch, await.
    destruct (check_and_createUser is_email bcrypt_hash clk (req_body form) db)
      as [db' [[r|u]|e]] eqn:Hc; simpl.
    + destruct (check_and_createUser_early _ _ _ _ _ _ _ Hc) as [m ->].
      intros H. injection H as <-. reflexivity.
    + intros H. injection H as <-. reflexivity.
    + intros H. injection H as <-. reflexivity.
  - unfold post_employees, requireAuth.
    destruct (negb (truthy (session_userId form)));
      [simpl; intros H; injection H as <-; reflexivity|].
    unfold try_catch, await.
    destruct (check_and_createUser is_email bcrypt_hash clk (req_body form) db)
      as [db' [[r|u]|e]] eqn:Hc; simpl.
    + destruct (check_and_createUser_early _ _ _ _ _ _ _ Hc) as [m ->].
      intros H. injection H as <-. reflexivity.
    + intros H. injection H as <-. reflexivity.
    + intros H. injection H as <-. reflexivity.
  - apply get_employees_strips_password.
  - unfold post_auth_login, await.
    destruct (loginSchema_parse (req_body login) db) as [db1 [data|e]];
      [|simpl; intros H; injection H as <-; reflexivity].
    unfold DatabaseStorage.getUserByUsername.
    destruct (find _ (users db1)) as [u|];
      [|simpl; intros H; injection H as <-; reflexivity].
    destruct (bcrypt_compare _ _); simpl; intros H; injection H as <-; reflexivity.
  - intros resp. unfold get_auth_me.
    destruct (negb (truthy (session_userId req)));
      [intros H; injection H as <-; simpl; intros H; injection H as <-; reflexivity|].
    unfold DatabaseStorage.getUser.
    destruct (find _ (users db)) as [u|];
      intros H; injection H as <-; simpl; intros H; injection H as <-; reflexivity.
Qed.

(** ** Reading one article *)

(** X18. [GET /api/articles/:id] in a session: an id no article has is
    answered 404 and nothing is written; with the [edit] query flag set
    the article is sent and nothing is written; without it the stored
    counter of that article goes up by one (while it fits the column) and
    the response still shows the article as it was read before the
    increment. *)
Theorem get_article_counts_views (req : Request unit) db :
  truthy (session_userId req) = true ->
  (has_article db (params_id req) = false ->
   get_article req db = (db, res_error 404 "Article not found"))
  /\ (forall a,
        find (fun a => Article.id a =? params_id req) (articles db) = Some a ->
        (truthy (query_edit req) = true ->
         get_article req db
           = (db, res_json (ArticleWithRelations_json (with_relations db a))))
        /\ (truthy (query_edit req) = false ->
            (forall b, In b (articles db) -> Article.id b = params_id req ->
                       (-2147483648 <= Article.views b < 2147483647)%Z) ->
            get_article req db
              = (set_articles db (map (add_views_to (params_id req) 1) (articles db)),
                 res_json (ArticleWithRelations_json (with_relations db a))))).
Proof.
  intros Hs. unfold get_article, requireAuth. rewrite Hs. cbn [negb].
  unfold try_catch, await, DatabaseStorage.getArticleById.
  split.
  - intros Hmiss. unfold has_article in Hmiss.
    replace (find (fun a => Article.id a =? params_id req) (articles db))
      with (@None Article.t); [reflexivity|].
    symmetry. destruct (find _ (articles db)) eqn:F; [|reflexivity].
    apply find_some in F as [Hin Hf].
    assert (existsb (fun a => Article.id a =? params_id req) (articles db) = true)
      by (apply existsb_exists; eauto).
    congruence.
  - intros a Hf. rewrite Hf. cbn [option_map]. split.
    + intros He. rewrite He. reflexivity.
    + intros He Hrange. rewrite He. cbn [negb].
      rewrite incrementArticleViews_once by exact Hrange. reflexivity.
Qed.

Lemma get_article_counts_views_witness :
  get_article (Sample.session "a1" tt) Sample.db
  = (set_articles Sample.db (map (add_views_to "a1" 1) (articles Sample.db)),
     res_json (ArticleWithRelations_json (with_relations Sample.db Sample.hello))).
Proof.
  destruct (get_article_counts_views (Sample.session "a1" tt) Sample.db eq_refl)
    as [_ H].
  destruct (H Sample.hello eq_refl) as [_ H2]. apply H2; [reflexivity|].
  intros b [<- | [<- | []]]; simpl; intros E; [lia | discriminate].
Defined.

(** ** Deleting an employee *)

(** X19. [DELETE /api/employees/:id] in a session: the caller's own id
    is answered 400 and nothing is written; the id of a stored user who
    still authors an article is answered 500 and nothing is written (the
    store refuses); any other id is answered 200 and exactly the users of
    that id are removed. *)
Theorem delete_employee_cases (req : Request unit) db me :
  session_userId req = Some me -> me <> "" ->
  (params_id req = me ->
   delete_employee req db = (db, res_error 400 "Cannot delete your own account"))
  /\ (params_id req <> me ->
      has_user db (params_id req) = true ->
      (exists a, In a (articles db) /\ Article.authorId a = params_id req) ->
      fst (delete_employee req db) = db
      /\ status (snd (delete_employee req db)) = 500)
  /\ (params_id req <> me ->
      (forall a, In a (articles db) -> Article.authorId a <> params_id req) ->
      delete_employee req db
        = (set_users db (filter (fun u => negb (User.id u =? params_id req)) (users db)),
           res_json (JObj [("success", JBool true)]))).
Proof.
  intros Hs Hme.
  assert (Ht : truthy (session_userId req) = true).
  { rewrite Hs. simpl. apply String.eqb_neq in Hme. now rewrite Hme. }
  unfold delete_employee, requireAuth. rewrite Ht, Hs. cbn [negb].
  unfold try_catch, await, DatabaseStorage.deleteUser, delete_users.
  split; [|split].
  - intros ->. now rewrite String.eqb_refl.
  - intros Hne Hu (a & Ha & Hid). apply String.eqb_neq in Hne. rewrite Hne, Hu.
    replace (existsb _ (articles db)) with true; [simpl; auto|].
    symmetry. apply existsb_exists. exists a. split; [exact Ha|].
    now apply String.eqb_eq.
  - intros Hne Hfree. apply String.eqb_neq in Hne. rewrite Hne.
    replace (existsb _ (articles db)) with false;
      [now rewrite andb_false_r|].
    symmetry. apply not_true_is_false. intros E.
    apply existsb_exists in E as (a & Ha & Hid). apply String.eqb_eq in Hid.
    now apply (Hfree a Ha).
Qed.

Lemma delete_employee_cases_witness :
  delete_employee (Sample.session "u1" tt) Sample.db
  = (Sample.db, res_error 400 "Cannot delete your own account").
Proof.
  destruct (delete_employee_cases (Sample.session "u1" tt) Sample.db "u1" eq_refl)
    as [H _]; [discriminate|].
  now apply H.
Defined.

(** ** Dashboard statistics *)

Lemma fold_left_views_acc {A} (key : A -> Z) l acc :
  fold_left (fun sum a => (sum + key a)%Z) l acc
  = (acc + fold_right (fun a s => key a + s) 0 l)%Z.
Proof.
  revert acc. induction l as [|x l IH]; intros acc; simpl; [lia|].
  rewrite IH. lia.
Qed.

Lemma fold_right_views_perm {A} (key : A -> Z) l l' :
  Permutation l l' ->
  fold_right (fun a s => (key a + s)%Z) 0%Z l
  = fold_right (fun a s => (key a + s)%Z) 0%Z l'.
Proof. induction 1; simpl; lia. Qed.

Lemma length_filter_perm {A} (p : A -> bool) l l' :
  Permutation l l' -> length (filter p l) = length (filter p l').
Proof.
  induction 1 as [|x l l' _ IH|x y l|l l' l'' _ IH1 _ IH2]; simpl.
  - reflexivity.
  - destruct (p x); simpl; now rewrite IH.
  - destruct (p x), (p y); reflexivity.
  - now rewrite IH1.
Qed.

Lemma filter_map_comm {A B} (p : B -> bool) (f : A -> B) l :
  filter p (map f l) = map f (filter (fun a => p (f a)) l).
Proof.
  induction l as [|a l IH]; simpl; [reflexivity|].
  destruct (p (f a)); simpl; now rewrite IH.
Qed.

Lemma count_published_draft l :
  count_status "published" l + count_status "draft" l <= length l.
Proof.
  unfold count_status. induction l as [|a l IH]; simpl; [lia|].
  destruct (Article.status a =? "published") eqn:Ep.
  - apply String.eqb_eq in Ep. rewrite Ep. simpl. lia.
  - destruct (Article.status a =? "draft"); simpl; lia.
Qed.

(** X20. [GET /api/dashboard/stats] in a session writes nothing and
    answers 200 with: the number of stored articles, the numbers of those
    whose status is "published" and "draft" (together never more than the
    total; an article with any other status is in neither), the number of
    users, the sum of all view counters, and the number of categories. *)
Theorem dashboard_stats_counts (req : Request unit) db :
  truthy (session_userId req) = true ->
  get_dashboard_stats req db
    = (db, res_json
             (JObj [("totalArticles", JNum (Z.of_nat (length (articles db))));
                    ("publishedArticles",
                     JNum (Z.of_nat (count_status "published" (articles db))));
                    ("draftArticles",
                     JNum (Z.of_nat (count_status "draft" (articles db))));
                    ("totalEmployees", JNum (Z.of_nat (length (users db))));
                    ("totalViews", JNum (sum_views (articles db)));
                    ("totalCategories", JNum (Z.of_nat (length (categories db))))]))
  /\ count_status "published" (articles db) + count_status "draft" (articles db)
     <= length (articles db)
  /\ sum_views (articles db)
     = fold_right (fun a s => (Article.views a + s)%Z) 0%Z (articles db).
Proof.
  intros Hs. split; [|split; [apply count_published_draft|]].
  - unfold get_dashboard_stats, requireAuth. rewrite Hs. cbn [negb].
    unfold try_catch, await, DatabaseStorage.getAllArticles, DatabaseStorage.getAllUsers,
      DatabaseStorage.getAllCategories, resolve, res_json.
    pose proof (orderBy_perm (desc Article.createdAt) (articles db)) as Hp.
    set (sorted := orderBy (desc Article.createdAt) (articles db)) in *.
    assert (Hcount : forall s,
      length (filter (fun a => Article.status (ArticleWithRelations.article a) =? s)
                (map (with_relations db) sorted))
      = count_status s (articles db)).
    { intros s. rewrite filter_map_comm, length_map. unfold count_status.
      symmetry. now apply length_filter_perm. }
    rewrite !Hcount, !length_map.
    rewrite <- (Permutation_length Hp).
    rewrite <- (Permutation_length (orderBy_perm (desc User.createdAt) (users db))).
    rewrite <- (Permutation_length (orderBy_perm (asc_name Category.name) (categories db))).
    replace (fold_left _ (map (with_relations db) sorted) 0%Z)
      with (sum_views (articles db)); [reflexivity|].
    unfold sum_views. rewrite !fold_left_views_acc.
    f_equal. rewrite (fold_right_views_perm Article.views _ _ Hp).
    clear. induction sorted as [|a l IH]; simpl; [reflexivity | now rewrite IH].
  - unfold sum_views. rewrite fold_left_views_acc. lia.
Qed.

Lemma dashboard_stats_counts_witness :
  get_dashboard_stats (Sample.session "" tt) Sample.db
  = (Sample.db,
     res_json (JObj [("totalArticles", JNum 2); ("publishedArticles", JNum 1);
                     ("draftArticles", JNum 1); ("totalEmployees", JNum 1);
                     ("totalViews", JNum 2147483647); ("totalCategories", JNum 0)])).
Proof.
  exact (proj1 (dashboard_stats_counts (Sample.session "" tt) Sample.db eq_refl)).
Defined.

(** ** Logging in *)

Lemma loginSchema_parse_valid u p db :
  u <> "" -> p <> "" ->
  loginSchema_parse (LoginBody.mk (Some u) (Some p)) db
  = (db, Fulfilled (LoginCredentials.mk u p)).
Proof.
  intros Hu Hp. unfold loginSchema_parse. cbn [LoginBody.username LoginBody.password].
  now rewrite !z_string_min_1 by assumption.
Qed.

Section Login.

Variable bcrypt_compare : string -> string -> bool.

(** X21. A login with an unknown username and a login with a known
    username but a password [bcrypt.compare] refuses get the very same
    answer, 401 "Invalid credentials"; neither writes to the store nor
    touches the session.  A login the comparison accepts answers 200 with
    the user's [id], [username], [email], [fullName] and [role] and sets
    the session's user id to that user's id. *)
Theorem login_outcomes (req : Request LoginBody.t) db name pw :
  req_body req = LoginBody.mk (Some name) (Some pw) ->
  name <> "" -> pw <> "" ->
  (find (fun u => User.username u =? name) (users db) = None ->
   post_auth_login bcrypt_compare req db
     = (db, (res_error 401 "Invalid credentials", session_userId req)))
  /\ (forall user,
        find (fun u => User.username u =? name) (users db) = Some user ->
        (bcrypt_compare pw (User.password user) = false ->
         post_auth_login bcrypt_compare req db
           = (db, (res_error 401 "Invalid credentials", session_userId req)))
        /\ (bcrypt_compare pw (User.password user) = true ->
            post_auth_login bcrypt_compare req db
              = (db, (res_json (session_user_json user), Some (User.id user))))).
Proof.
  intros Hb Hn Hp. unfold post_auth_login, await. rewrite Hb.
  rewrite loginSchema_parse_valid by assumption.
  unfold DatabaseStorage.getUserByUsername.
  cbn [LoginCredentials.username LoginCredentials.password].
  split.
  - intros ->. reflexivity.
  - intros user ->. split; intros ->; reflexivity.
Qed.

End Login.

Lemma login_outcomes_witness :
  post_auth_login (fun pw hash => hash =? Sample.bcrypt_hash pw)
    (mkRequest None "" None (LoginBody.mk (Some "alice") (Some "hash"))) Sample.db
  = (Sample.db, (res_json (session_user_json Sample.alice), Some "u1")).
Proof.
  destruct (login_outcomes (fun pw hash => hash =? Sample.bcrypt_hash pw)
              (mkRequest None "" None (LoginBody.mk (Some "alice") (Some "hash")))
              Sample.db "alice" "hash" eq_refl) as [_ H];
    [discriminate | discriminate |].
  destruct (H Sample.alice eq_refl) as [_ H2]. now apply H2.
Defined.

(** X22. Register, then log in.  Provided [bcrypt.compare] accepts a
    password against its own [bcrypt.hash], a registration that succeeds
    can be followed by a login with the same username and password: it
    answers 200 and the session's user id becomes the id of the user just
    created. *)
Theorem register_then_login is_email bcrypt_hash bcrypt_compare clk
    (form : Request UserBody.t) (login : Request LoginBody.t) db name pw e fn role :
  (forall p, bcrypt_compare p (bcrypt_hash p) = true) ->
  req_body form = UserBody.mk (Some name) (Some pw) (Some e) (Some fn) role ->
  req_body login = LoginBody.mk (Some name) (Some pw) ->
  3 <= String.length name -> 6 <= String.length pw ->
  is_email e = true -> 2 <= String.length fn ->
  existsb (fun u => User.username u =? name) (users db) = false ->
  existsb (fun u => User.email u =? e) (users db) = false ->
  let db' := fst (post_auth_register is_email bcrypt_hash clk form db) in
  exists user,
    In user (users db') /\ User.id user = uuid (uuids db)
    /\ post_auth_login bcrypt_compare login db'
       = (db', (res_json (session_user_json user), Some (uuid (uuids db)))).
Proof.
  intros Hcmp Hf Hl L1 L2 L3 L4 Hn He db'.
  set (user := User.mk (uuid (uuids db)) name (bcrypt_hash pw) e fn
                 (orElse role "employee") (sql_now clk)).
  assert (Hdb' : db' = set_users (set_uuids db (S (uuids db))) (users db ++ [user])).
  { subst db'. unfold post_auth_register, try_catch, await. rewrite Hf.
    rewrite check_and_createUser_fresh by assumption. reflexivity. }
  assert (Hfind : find (fun u => User.username u =? name) (users db') = Some user).
  { rewrite Hdb'. cbn [users set_users]. apply find_app_fresh; [exact Hn|].
    apply String.eqb_refl. }
  exists user. split; [|split; [reflexivity|]].
  - rewrite Hdb'. cbn [users set_users]. apply in_app_iff. right. left. reflexivity.
  - unfold post_auth_login, await. rewrite Hl.
    rewrite loginSchema_parse_valid.
    + unfold DatabaseStorage.getUserByUsername.
      cbn [LoginCredentials.username LoginCredentials.password]. rewrite Hfind.
      cbn [User.password user]. rewrite Hcmp. reflexivity.
    + intros ->. simpl in L1. lia.
    + intros ->. simpl in L2. lia.
Qed.

Lemma register_then_login_witness :
  exists user,
    In user (users (fst (post_auth_register Sample.is_email Sample.bcrypt_hash
                           Sample.clk1
                           (mkRequest None "" None
                              (UserBody.mk (Some "bobby") (Some "secret1")
                                 (Some "bob@x.com") (Some "Bob B") None))
                           Sample.db)))
    /\ User.id user = uuid 0
    /\ post_auth_login (fun pw hash => hash =? Sample.bcrypt_hash pw)
         (mkRequest None "" None (LoginBody.mk (Some "bobby") (Some "secret1")))
         (fst (post_auth_register Sample.is_email Sample.bcrypt_hash Sample.clk1
                 (mkRequest None "" None
                    (UserBody.mk (Some "bobby") (Some "secret1")
                       (Some "bob@x.com") (Some "Bob B") None))
                 Sample.db))
       = (fst (post_auth_register Sample.is_email Sample.bcrypt_hash Sample.clk1
                 (mkRequest None "" None
                    (UserBody.mk (Some "bobby") (Some "secret1")
                       (Some "bob@x.com") (Some "Bob B") None))
                 Sample.db),
          (res_json (session_user_json user), Some (uuid 0))).
Proof.
  apply (register_then_login Sample.is_email Sample.bcrypt_hash
           (fun pw hash => hash =? Sample.bcrypt_hash pw) Sample.clk1
           (mkRequest None "" None
              (UserBody.mk (Some "bobby") (Some "secret1")
                 (Some "bob@x.com") (Some "Bob B") None))
           (mkRequest None "" None (LoginBody.mk (Some "bobby") (Some "secret1")))
           Sample.db "bobby" "secret1" "bob@x.com" "Bob B" None);
    try reflexivity; try (simpl; lia).
  intros p. apply String.eqb_refl.
Defined.

(** ** Admission *)

(** X23. Without a session user id (none, or the empty string) every
    route behind [requireAuth] answers 401 "Unauthorized" and neither
    reads nor writes the store, whatever the path parameter, the query
    and the body are. *)
Theorem protected_routes_need_session is_email bcrypt_hash clk sid id edit
    (article : ArticleBody.t) (user : UserBody.t) (category : CategoryBody.t)
    (tag : TagBody.t) db :
  truthy sid = false ->
  let denied := (db, res_error 401 "Unauthorized") in
  get_dashboard_stats (mkRequest sid id edit tt) db = denied
  /\ get_articles (mkRequest sid id edit tt) db = denied
  /\ get_articles_recent (mkRequest sid id edit tt) db = denied
  /\ get_article (mkRequest sid id edit tt) db = denied
  /\ post_articles clk (mkRequest sid id edit article) db = denied
  /\ patch_article clk (mkRequest sid id edit article) db = denied
  /\ delete_article (mkRequest sid id edit tt) db = denied
  /\ get_employees (mkRequest sid id edit tt) db = denied
  /\ post_employees is_email bcrypt_hash clk (mkRequest sid id edit user) db = denied
  /\ delete_employee (mkRequest sid id edit tt) db = denied
  /\ get_categories (mkRequest sid id edit tt) db = denied
  /\ post_categories clk (mkRequest sid id edit category) db = denied
  /\ delete_category (mkRequest sid id edit tt) db = denied
  /\ get_tags (mkRequest sid id edit tt) db = denied
  /\ post_tags clk (mkRequest sid id edit tag) db = denied
  /\ delete_tag (mkRequest sid id edit tt) db = denied.
Proof.
  intros Hs denied.
  repeat split;
    unfold get_dashboard_stats, get_articles, get_articles_recent, get_article,
      post_articles, patch_article, delete_article, get_employees, post_employees,
      delete_employee, get_categories, post_categories, delete_category, get_tags,
      post_tags, delete_tag, requireAuth;
    cbn [session_userId]; rewrite Hs; reflexivity.
Qed.

Lemma protected_routes_need_session_witness :
  patch_article Sample.clk1
    (mkRequest (Some "") "a1" None (ArticleBody.mk Sample.publish (Some [])))
    Sample.db
  = (Sample.db, res_error 401 "Unauthorized").
Proof.
  destruct (protected_routes_need_session Sample.is_email Sample.bcrypt_hash
              Sample.clk1 (Some "") "a1" None
              (ArticleBody.mk Sample.publish (Some []))
              (UserBody.mk None None None None None)
              (CategoryBody.mk None None None) (TagBody.mk None)
              Sample.db eq_refl) as (_ & _ & _ & _ & _ & H & _).
  exact H.
Defined.

(** ** Tags and categories through the routes *)

Lemma insert_tags_run clk v db :
  insert_tags clk v db =
    if existsb (fun t => Tag.name t =? InsertTag.name v) (tags db)
    then (set_uuids db (S (uuids db)), Rejected (UniqueViolation "tags_name_unique"))
    else
      (set_tags (set_uuids db (S (uuids db)))
         (tags db ++ [Tag.mk (uuid (uuids db)) (InsertTag.name v) (sql_now clk)]),
       Fulfilled (Tag.mk (uuid (uuids db)) (InsertTag.name v) (sql_now clk))).
Proof. reflexivity. Qed.

Lemma insert_categories_run clk v db :
  insert_categories clk v db =
    if existsb (fun c => Category.name c =? InsertCategory.name v) (categories db)
    then (set_uuids db (S (uuids db)),
          Rejected (UniqueViolation "categories_name_unique"))
    else
      let row := Category.mk (uuid (uuids db)) (InsertCategory.name v)
                   (orNull (InsertCategory.description v))
                   (orElse (InsertCategory.color v) "#3b82f6") (sql_now clk) in
      (set_categories (set_uuids db (S (uuids db))) (categories db ++ [row]),
       Fulfilled row).
Proof. reflexivity. Qed.

(** X24. [POST /api/tags] and [POST /api/categories] in a session: a
    body without a name is answered 400 before any storage call; a name
    some stored row already has is answered 400 and leaves every table as
    it was (the store refuses the insert); a new name appends exactly one
    row with that name and answers 200. *)
Theorem post_tags_and_categories clk sid id edit db :
  truthy sid = true ->
  (fst (post_tags clk (mkRequest sid id edit (TagBody.mk None)) db) = db
   /\ status (snd (post_tags clk (mkRequest sid id edit (TagBody.mk None)) db)) = 400)
  /\ (forall description color,
        let body := CategoryBody.mk None description color in
        fst (post_categories clk (mkRequest sid id edit body) db) = db
        /\ status (snd (post_categories clk (mkRequest sid id edit body) db)) = 400)
  /\ (forall name,
        let db' := fst (post_tags clk (mkRequest sid id edit (TagBody.mk (Some name))) db) in
        let resp := snd (post_tags clk (mkRequest sid id edit (TagBody.mk (Some name))) db) in
        (has_name_tag name db = true ->
         status resp = 400 /\ tags db' = tags db)
        /\ (has_name_tag name db = false ->
            status resp = 200
            /\ tags db' = (tags db ++ [Tag.mk (uuid (uuids db)) name (sql_now clk)])%list)
        /\ users db' = users db /\ categories db' = categories db
        /\ articles db' = articles db /\ articleTags db' = articleTags db)
  /\ (forall name description color,
        let body := CategoryBody.mk (Some name) description color in
        let db' := fst (post_categories clk (mkRequest sid id edit body) db) in
        let resp := snd (post_categories clk (mkRequest sid id edit body) db) in
        (has_name_category name db = true ->
         status resp = 400 /\ categories db' = categories db)
        /\ (has_name_category name db = false ->
            status resp = 200
            /\ categories db' =
                 (categories db ++
                  [Category.mk (uuid (uuids db)) name (orNull description)
                     (orElse color "#3b82f6") (sql_now clk)])%list)
        /\ users db' = users db /\ tags db' = tags db
        /\ articles db' = articles db /\ articleTags db' = articleTags db).
Proof.
  intros Hs.
  split; [unfold post_tags, requireAuth; cbn [session_userId]; now rewrite Hs|].
  split; [intros description color body; subst body;
          unfold post_categories, requireAuth; cbn [session_userId]; now rewrite Hs|].
  split.
  - intros name db' resp. subst db' resp.
    unfold post_tags, requireAuth. cbn [session_userId]. rewrite Hs. cbn [negb].
    unfold try_catch, await, insertTagSchema_parse, DatabaseStorage.createTag, resolve.
    cbn [req_body TagBody.name]. rewrite insert_tags_run. unfold has_name_tag.
    cbn [InsertTag.name].
    destruct (existsb (fun t => Tag.name t =? name) (tags db)); simpl;
      repeat split; intros; try congruence; auto.
  - intros name description color body db' resp. subst body db' resp.
    unfold post_categories, requireAuth. cbn [session_userId]. rewrite Hs. cbn [negb].
    unfold try_catch, await, insertCategorySchema_parse,
      DatabaseStorage.createCategory, resolve.
    cbn [req_body CategoryBody.name CategoryBody.description CategoryBody.color].
    rewrite insert_categories_run. unfold has_name_category.
    cbn [InsertCategory.name InsertCategory.description InsertCategory.color].
    destruct (existsb (fun c => Category.name c =? name) (categories db)); simpl;
      repeat split; intros; try congruence; auto.
Qed.

Lemma post_tags_and_categories_witness :
  status (snd (post_tags Sample.clk1
                 (mkRequest (Some "u1") "" None (TagBody.mk (Some "intro")))
                 Sample.db)) = 400
  /\ tags (fst (post_tags Sample.clk1
                  (mkRequest (Some "u1") "" None (TagBody.mk (Some "intro")))
                  Sample.db)) = tags Sample.db.
Proof.
  destruct (post_tags_and_categories Sample.clk1 (Some "u1") "" None Sample.db eq_refl)
    as (_ & _ & H & _).
  destruct (H "intro") as [H1 _]. now apply H1.
Defined.

(** ** The tag selection of the editor *)

(** X25. [toggleTag] flips the membership of the given tag id and of
    no other id; it keeps a selection free of repetitions; and toggling
    an id that was not selected twice gives back the selection
    unchanged. *)
Theorem toggleTag_flips tagId prev :
  (forall x, In x (toggleTag tagId prev) <->
             (x <> tagId /\ In x prev) \/ (x = tagId /\ ~ In tagId prev))
  /\ (NoDup prev -> NoDup (toggleTag tagId prev))
  /\ (~ In tagId prev -> toggleTag tagId (toggleTag tagId prev) = prev).
Proof.
  unfold toggleTag.
  destruct (existsb (fun id => id =? tagId) prev) eqn:E.
  - apply existsb_exists in E as (y & Hy & Ey). apply String.eqb_eq in Ey. subst y.
    split; [|split].
    + intros x. rewrite filter_In, negb_true_iff, String.eqb_neq. tauto.
    + apply NoDup_filter.
    + intros Hn. contradiction.
  - assert (Hn : ~ In tagId prev).
    { intros Hin. assert (existsb (fun id => id =? tagId) prev = true).
      { apply existsb_exists. exists tagId. split; [exact Hin | apply String.eqb_refl]. }
      congruence. }
    split; [|split].
    + intros x. rewrite in_app_iff. simpl. split.
      * intros [Hx | [<- | []]]; [left | right; auto].
        split; [|exact Hx]. intros ->. contradiction.
      * intros [[_ Hx] | [-> _]]; auto.
    + intros Hnd. apply NoDup_app; [exact Hnd | repeat constructor; intros [] |].
      intros x Hx [<- | []]. contradiction.
    + intros _. rewrite existsb_app. simpl. rewrite String.eqb_refl, orb_true_r.
      rewrite filter_app. simpl. rewrite String.eqb_refl. simpl.
      rewrite app_nil_r. apply filter_all, Forall_forall. intros x Hx.
      rewrite negb_true_iff. apply String.eqb_neq. intros Ex. subst x. contradiction.
Qed.

(** ** Storage calls that fail half-way *)

Lemma insert_articleTags_bad_tag id l db :
  has_article db id = true -> forallb (has_tag db) l = false ->
  exists e, insert_articleTags (map (fun t => (id, t)) l) db
            = (set_uuids db (uuids db + length l), Rejected e).
Proof.
  intros Ha Ht. unfold insert_articleTags.
  destruct l as [|t l]; [discriminate|].
  remember (t :: l) as l' eqn:El.
  assert (Hne : l' <> []) by (subst; discriminate).
  assert (Ht' : forallb (fun x => has_tag db x) l' = false) by exact Ht.
  rewrite !forallb_map. simpl.
  rewrite (forallb_const _ _ Hne), Ha, Ht'. simpl.
  rewrite length_map. subst l'. eexists. reflexivity.
Qed.

(** X26. [createArticle] is not atomic: with a stored author and
    category but a tag id that is no stored tag, the article row is
    inserted, then the insert of the links is refused as a whole: the
    promise is rejected, the article stays in the table and it has no
    link at all. *)
Theorem createArticle_unknown_tag_keeps_article clk v tagIds db :
  insert_refs_ok db v = true ->
  forallb (has_tag db) tagIds = false ->
  exists db' e article,
    DatabaseStorage.createArticle clk v (Some tagIds) db = (db', Rejected e)
    /\ articles db' = (articles db ++ [article])%list
    /\ Article.id article = uuid (uuids db)
    /\ Article.title article = InsertArticle.title v
    /\ articleTags db' = articleTags db.
Proof.
  intros Hrefs Htags.
  unfold DatabaseStorage.createArticle, await.
  rewrite insert_articles_accepted by exact Hrefs.
  destruct tagIds as [|t l]; [discriminate|].
  cbv beta iota.
  match goal with |- context [insert_articleTags (map _ ?l) ?d] =>
    destruct (insert_articleTags_bad_tag
                (uuid (uuids db)) l d) as [e He] end.
  - unfold has_article. cbn [articles set_articles]. rewrite existsb_app. simpl.
    now rewrite String.eqb_refl, !orb_true_r.
  - exact Htags.
  - cbn [article_row Article.id] in *. rewrite He.
    eexists _, e, _. split; [reflexivity|]. cbn. auto.
Qed.

Lemma createArticle_unknown_tag_keeps_article_witness :
  exists db' e article,
    DatabaseStorage.createArticle Sample.clk1 Sample.greeting (Some ["t1"; "nope"])
      Sample.db = (db', Rejected e)
    /\ articles db' = (articles Sample.db ++ [article])%list
    /\ Article.id article = uuid 0
    /\ Article.title article = "Hi"
    /\ articleTags db' = articleTags Sample.db.
Proof.
  apply (createArticle_unknown_tag_keeps_article Sample.clk1 Sample.greeting
           ["t1"; "nope"] Sample.db); reflexivity.
Defined.

(** X27. [updateArticle] is not atomic either: for a stored article,
    fields the store accepts and a tag list naming an id that is no
    stored tag, the row is updated and the old links of the article are
    deleted before the insert of the new links is refused as a whole: the
    promise is rejected and the article is left updated and with no tag;
    the links of the other articles are untouched. *)
Theorem updateArticle_unknown_tag_clears_tags clk id upd tagIds db :
  update_refs_ok db upd = true ->
  has_article db id = true ->
  forallb (has_tag db) tagIds = false ->
  exists db' e,
    DatabaseStorage.updateArticle clk id upd (Some tagIds) db = (db', Rejected e)
    /\ articles db' =
         map (rewrite_row (DatabaseStorage.updateArticle_set clk upd) id) (articles db)
    /\ articleTags db' = links_of_others id db
    /\ tagIds_of id db' = [].
Proof.
  intros Hrow Hart Htags.
  unfold DatabaseStorage.updateArticle, await.
  rewrite update_articles_accepted by now apply check_updateArticle_set.
  unfold delete_articleTags_of.
  destruct tagIds as [|t l]; [discriminate|].
  cbv beta iota.
  match goal with |- context [insert_articleTags (map _ ?l) ?d] =>
    destruct (insert_articleTags_bad_tag id l d) as [e He] end.
  - unfold has_article in *. simpl. now rewrite existsb_rewrite_row.
  - exact Htags.
  - rewrite He. eexists _, e. split; [reflexivity|].
    split; [reflexivity|]. split; [reflexivity|].
    unfold tagIds_of, links_of. cbn [articleTags set_articleTags set_articles set_uuids].
    now rewrite filter_filter_negb.
Qed.

Lemma updateArticle_unknown_tag_clears_tags_witness :
  exists db' e,
    DatabaseStorage.updateArticle Sample.clk1 "a1" Sample.publish (Some ["nope"])
      Sample.db = (db', Rejected e)
    /\ articles db' =
         map (rewrite_row (DatabaseStorage.updateArticle_set Sample.clk1 Sample.publish)
                "a1") (articles Sample.db)
    /\ articleTags db' = links_of_others "a1" Sample.db
    /\ tagIds_of "a1" db' = [].
Proof.
  apply (updateArticle_unknown_tag_clears_tags Sample.clk1 "a1" Sample.publish
           ["nope"] Sample.db); reflexivity.
Defined.
